(** * Trading and settlement engine of the prediction-market platform

    A shallow embedding of the three edge functions that make up the core
    of the platform, and of the relational store they run against:

    - [PlaceOrder.serve]     (supabase/functions/place-order/index.ts)
    - [SellPosition.serve]   (supabase/functions/sell-position/index.ts)
    - [ResolveMarket.serve]  (supabase/functions/resolve-market/index.ts)

    Every handler is a function from a request and a store to a response
    and a store.  The supabase client never throws on a failed statement:
    it returns an error object, which the handlers ignore except where
    noted, so a statement the schema rejects is a statement without
    effect.

    Modelling choices.  Prices, quantities, balances and share counts are
    integers ([Z]), as the [integer] columns they are written to; the
    32-bit range of those columns is not modelled.  The CHECK and UNIQUE
    constraints of the migrations are modelled where a handler writes to
    the constrained table; foreign keys are taken to hold.  The store
    itself does not fail, so the [deductError] branch of place-order has
    no counterpart.  [ORDER BY created_at] is a merge sort on the
    timestamp; the order among equal timestamps, which Postgres leaves
    open, is whatever the sort gives.  Handlers run one at a time. *)

From Stdlib Require Import ZArith QArith.
From Stdlib Require Import Lqa Qround.
From stdpp Require Import gmap strings list sorting.

Local Open Scope Z_scope.
#[local] Set Warnings "-clear-no-such-hyp".

(** ** The ledger store *)

Module Store.

(** Postgres enums [order_side] / [vote_choice] and [market_status]. *)
Inductive order_side := YES | NO.
Inductive market_status := OPEN | VOTING | RESOLVED | CANCELLED.

#[global] Instance order_side_eq_dec : EqDecision order_side.
Proof. solve_decision. Defined.
#[global] Instance market_status_eq_dec : EqDecision market_status.
Proof. solve_decision. Defined.

(** Identifiers that arrive in requests (markets, users, leagues) are uuid
    strings; the empty string stands for a field that is absent or empty,
    both of which JavaScript treats as falsy. *)
Abbreviation uuid := string.

Definition truthy (s : uuid) : bool := negb (String.eqb s EmptyString).

(** Rows the engine itself creates (orders, positions) get their primary
    key from [gen_random_uuid()]; the store's [next_id] counter stands for
    that generator. *)
Record market := Market {
  mkt_id : uuid;
  mkt_status : market_status;
  mkt_resolved_outcome : option order_side;
  mkt_league_id : option uuid;
  mkt_reported_at : option Z;
  mkt_reported_by : option uuid;
  mkt_evidence_url : option string;
}.

Record order := Order {
  ord_id : nat;
  ord_market_id : uuid;
  ord_user_id : uuid;
  ord_side : order_side;
  ord_price : Z;
  ord_quantity : Z;
  ord_remaining_quantity : Z;
  ord_is_sell_order : bool;
  ord_created_at : Z;
}.

Record trade := Trade {
  trd_market_id : uuid;
  trd_yes_user_id : uuid;
  trd_no_user_id : uuid;
  trd_price : Z;
  trd_quantity : Z;
}.

Record position := Position {
  pos_id : nat;
  pos_market_id : uuid;
  pos_user_id : uuid;
  pos_yes_shares : Z;
  pos_no_shares : Z;
}.

Record vote := Vote {
  vt_market_id : uuid;
  vt_user_id : uuid;
  vt_vote : order_side;
  vt_stake_amount : Z;
}.

(** The [numeric] weights of [voting_settings] are exact rationals here. *)
Record settings := Settings {
  yes_bloc_weight : Q;
  no_bloc_weight : Q;
  admin_weight : Q;
}.

(** [league_members] has UNIQUE (league_id, user_id) and is only ever read
    and written through that key: it is a finite map to [token_balance].
    [user_roles] is only ever asked whether a user has the admin role. *)
Record db := Db {
  markets : list market;
  orders : list order;
  trades : list trade;
  positions : list position;
  votes : list vote;
  league_members : gmap (uuid * uuid) Z;
  admins : gset uuid;
  voting_settings : option settings;
  next_id : nat;
  now : Z;
}.

Definition set_markets (f : list market → list market) (d : db) : db :=
  Db (f (markets d)) (orders d) (trades d) (positions d) (votes d)
     (league_members d) (admins d) (voting_settings d) (next_id d) (now d).
Definition set_orders (f : list order → list order) (d : db) : db :=
  Db (markets d) (f (orders d)) (trades d) (positions d) (votes d)
     (league_members d) (admins d) (voting_settings d) (next_id d) (now d).
Definition set_trades (f : list trade → list trade) (d : db) : db :=
  Db (markets d) (orders d) (f (trades d)) (positions d) (votes d)
     (league_members d) (admins d) (voting_settings d) (next_id d) (now d).
Definition set_positions (f : list position → list position) (d : db) : db :=
  Db (markets d) (orders d) (trades d) (f (positions d)) (votes d)
     (league_members d) (admins d) (voting_settings d) (next_id d) (now d).
Definition set_votes (f : list vote → list vote) (d : db) : db :=
  Db (markets d) (orders d) (trades d) (positions d) (f (votes d))
     (league_members d) (admins d) (voting_settings d) (next_id d) (now d).
Definition set_league_members
    (f : gmap (uuid * uuid) Z → gmap (uuid * uuid) Z) (d : db) : db :=
  Db (markets d) (orders d) (trades d) (positions d) (votes d)
     (f (league_members d)) (admins d) (voting_settings d) (next_id d) (now d).
Definition bump_next_id (d : db) : db :=
  Db (markets d) (orders d) (trades d) (positions d) (votes d)
     (league_members d) (admins d) (voting_settings d) (S (next_id d)) (now d).

(** [.single()]: the row when the query yields exactly one, else nothing. *)
Definition single {A} (rows : list A) : option A :=
  match rows with
  | [x] => Some x
  | _ => None
  end.

Definition opposite (s : order_side) : order_side :=
  match s with YES => NO | NO => YES end.

(** *** markets *)

Definition select_market (mk : uuid) (d : db) : option market :=
  single (filter (λ m, mkt_id m = mk) (markets d)).

Definition update_market (mk : uuid) (f : market → market) (d : db) : db :=
  set_markets (fmap (λ m, if decide (mkt_id m = mk) then f m else m)) d.

(** *** user_roles *)

Definition is_admin (u : uuid) (d : db) : bool := bool_decide (u ∈ admins d).

(** *** league_members *)

(** [select token_balance ... eq league_id, eq user_id, single()]; a null
    league matches no row. *)
Definition select_member (lg : option uuid) (u : uuid) (d : db) : option Z :=
  match lg with
  | Some l => league_members d !! (l, u)
  | None => None
  end.

(** [update {token_balance: v} ... eq league_id, eq user_id]. *)
Definition update_member (lg : option uuid) (u : uuid) (v : Z) (d : db) : db :=
  match lg with
  | Some l => set_league_members (alter (λ _, v) (l, u)) d
  | None => d
  end.

(** The read-then-write idiom every credit in the handlers uses:
    [const {data: m} = select ...; if (m) update {token_balance:
    m.token_balance + amount}]. *)
Definition credit_member (lg : option uuid) (u : uuid) (amount : Z) (d : db) : db :=
  match select_member lg u d with
  | Some bal => update_member lg u (bal + amount) d
  | None => d
  end.

(** *** orders *)

Definition created_before (a b : order) : Prop :=
  ord_created_at a ≤ ord_created_at b.

#[global] Instance created_before_dec : RelDecision created_before.
Proof. intros a b. unfold created_before. apply _. Defined.

(** The candidate query shared by all three matching loops:
    [eq market_id, eq side, eq price, eq is_sell_order,
     gt remaining_quantity 0, neq user_id, order created_at ascending]. *)
Definition candidate (mk : uuid) (sd : order_side) (p : Z) (sell : bool)
    (excluded : uuid) (o : order) : Prop :=
  ord_market_id o = mk ∧ ord_side o = sd ∧ ord_price o = p ∧
  ord_is_sell_order o = sell ∧ 0 < ord_remaining_quantity o ∧
  ord_user_id o ≠ excluded.

#[global] Instance candidate_dec mk sd p sell excluded o :
  Decision (candidate mk sd p sell excluded o).
Proof. unfold candidate. apply _. Defined.

Definition select_candidates (mk : uuid) (sd : order_side) (p : Z) (sell : bool)
    (excluded : uuid) (d : db) : list order :=
  merge_sort created_before (filter (candidate mk sd p sell excluded) (orders d)).

(** [select * from orders eq market_id, gt remaining_quantity 0]. *)
Definition select_open_orders (mk : uuid) (d : db) : list order :=
  filter (λ o, ord_market_id o = mk ∧ 0 < ord_remaining_quantity o) (orders d).

Definition delete_order (oid : nat) (d : db) : db :=
  set_orders (filter (λ o, ord_id o ≠ oid)) d.

(** The payload [{remaining_quantity: r}] of an order update. *)
Definition with_remaining (r : Z) (o : order) : order :=
  Order (ord_id o) (ord_market_id o) (ord_user_id o) (ord_side o)
    (ord_price o) (ord_quantity o) r (ord_is_sell_order o) (ord_created_at o).

(** CHECK (remaining_quantity >= 0) guards the update. *)
Definition update_order_remaining (oid : nat) (r : Z) (d : db) : db :=
  if bool_decide (0 ≤ r) then
    set_orders (fmap (λ o, if decide (ord_id o = oid) then with_remaining r o else o)) d
  else d.

(** CHECK (price between 1 and 99), CHECK (quantity > 0) and
    CHECK (remaining_quantity >= 0) guard the insert; [id] and
    [created_at] take their column defaults. *)
Definition insert_order (mk u : uuid) (sd : order_side) (p q r : Z)
    (sell : bool) (d : db) : db :=
  if bool_decide (1 ≤ p ≤ 99 ∧ 0 < q ∧ 0 ≤ r) then
    bump_next_id
      (set_orders (λ os, os ++ [Order (next_id d) mk u sd p q r sell (now d)]) d)
  else d.

(** *** trades *)

(** CHECK (price between 1 and 99) and CHECK (quantity > 0). *)
Definition insert_trade (mk yes_u no_u : uuid) (p q : Z) (d : db) : db :=
  if bool_decide (1 ≤ p ≤ 99 ∧ 0 < q) then
    set_trades (λ ts, ts ++ [Trade mk yes_u no_u p q]) d
  else d.

(** *** positions *)

Definition select_position (mk u : uuid) (d : db) : option position :=
  single (filter (λ p, pos_market_id p = mk ∧ pos_user_id p = u) (positions d)).

Definition select_positions (mk : uuid) (d : db) : list position :=
  filter (λ p, pos_market_id p = mk) (positions d).

Definition update_position (pid : nat) (f : position → position) (d : db) : db :=
  set_positions (fmap (λ p, if decide (pos_id p = pid) then f p else p)) d.

(** The payloads [{yes_shares: v}] and [{no_shares: v}] of a position
    update. *)
Definition set_shares (s : order_side) (v : Z) (p : position) : position :=
  match s with
  | YES => Position (pos_id p) (pos_market_id p) (pos_user_id p) v (pos_no_shares p)
  | NO => Position (pos_id p) (pos_market_id p) (pos_user_id p) (pos_yes_shares p) v
  end.

Definition shares_of (s : order_side) (p : position) : Z :=
  match s with YES => pos_yes_shares p | NO => pos_no_shares p end.

(** UNIQUE (market_id, user_id) guards the insert. *)
Definition insert_position (mk u : uuid) (yes no : Z) (d : db) : db :=
  if bool_decide (Exists (λ p, pos_market_id p = mk ∧ pos_user_id p = u) (positions d))
  then d
  else bump_next_id
         (set_positions (λ ps, ps ++ [Position (next_id d) mk u yes no]) d).

(** *** votes *)

Definition select_votes (mk : uuid) (d : db) : list vote :=
  filter (λ v, vt_market_id v = mk) (votes d).

Definition delete_votes (mk : uuid) (d : db) : db :=
  set_votes (filter (λ v, vt_market_id v ≠ mk)) d.

End Store.

Import Store.

(** ** place-order *)

Module PlaceOrder.

Record request := Request {
  market_id : uuid;
  user_id : uuid;
  side : order_side;
  price : Z;
  quantity : Z;
  league_id : uuid;
}.

Inductive response :=
| Error (status : Z) (message : string)
| Success (matched remaining : Z) (trades : nat).

(** The pending-vote gate: some market in VOTING, anywhere in the system,
    has no vote of this user. *)
Definition hasUnvotedMarket (u : uuid) (d : db) : bool :=
  let votingMarkets := filter (λ m, mkt_status m = VOTING) (markets d) in
  match votingMarkets with
  | [] => false
  | _ =>
    let userVotes := filter (λ v, vt_user_id v = u) (votes d) in
    let votedMarketIds : gset uuid := list_to_set (vt_market_id <$> userVotes) in
    existsb (λ m, bool_decide (mkt_id m ∉ votedMarketIds)) votingMarkets
  end.

Record MatchResult := Match {
  orderId : nat;
  orderUserId : uuid;
  fillQuantity : Z;
  isContractTransfer : bool;
  originalRemaining : Z;
}.

(** One [for (const o of candidates)] loop: it pushes a match per candidate
    and stops at the first candidate seen with nothing left to fill. *)
Fixpoint walk (transfer : bool) (candidates : list order) (remainingQuantity : Z)
    : list MatchResult * Z :=
  match candidates with
  | [] => ([], remainingQuantity)
  | o :: rest =>
    if remainingQuantity =? 0 then ([], remainingQuantity)
    else
      let fill := Z.min remainingQuantity (ord_remaining_quantity o) in
      let '(ms, r) := walk transfer rest (remainingQuantity - fill) in
      (Match (ord_id o) (ord_user_id o) fill transfer (ord_remaining_quantity o) :: ms, r)
  end.

Definition costPerShare (s : order_side) (p : Z) : Z :=
  match s with YES => p | NO => 100 - p end.

Definition yesUserId (s : order_side) (u other : uuid) : uuid :=
  match s with YES => u | NO => other end.
Definition noUserId (s : order_side) (u other : uuid) : uuid :=
  match s with NO => u | YES => other end.

(** The price written to [trades] by each branch of the execution loop. *)
Definition transferPrice (rq : request) : Z := price rq.
Definition tradePrice (rq : request) : Z :=
  match side rq with YES => price rq | NO => 100 - price rq end.

(** Add [q] shares of side [s] to the position of [u], creating the row
    when the lookup finds none. *)
Definition give_shares (mk u : uuid) (s : order_side) (q : Z) (d : db) : db :=
  match select_position mk u d with
  | Some pos =>
    update_position (pos_id pos) (set_shares s (shares_of s pos + q)) d
  | None =>
    insert_position mk u (match s with YES => q | NO => 0 end)
      (match s with NO => q | YES => 0 end) d
  end.

Definition update_matched_order (m : MatchResult) (d : db) : db :=
  let newRemaining := originalRemaining m - fillQuantity m in
  if newRemaining =? 0 then delete_order (orderId m) d
  else update_order_remaining (orderId m) newRemaining d.

(** Body of [for (const match of matches)]. *)
Definition execute_match (rq : request) (effectiveLeagueId : option uuid)
    (d : db) (m : MatchResult) : db :=
  let d :=
    if isContractTransfer m then
      let sellerId := orderUserId m in
      let d := insert_trade (market_id rq)
                 (yesUserId (side rq) (user_id rq) sellerId)
                 (noUserId (side rq) (user_id rq) sellerId)
                 (transferPrice rq) (fillQuantity m) d in
      let saleProceeds := costPerShare (side rq) (price rq) * fillQuantity m in
      let d := credit_member effectiveLeagueId sellerId saleProceeds d in
      give_shares (market_id rq) (user_id rq) (side rq) (fillQuantity m) d
    else
      let yes_u := yesUserId (side rq) (user_id rq) (orderUserId m) in
      let no_u := noUserId (side rq) (user_id rq) (orderUserId m) in
      let d := insert_trade (market_id rq) yes_u no_u (tradePrice rq)
                 (fillQuantity m) d in
      let d := give_shares (market_id rq) yes_u YES (fillQuantity m) d in
      give_shares (market_id rq) no_u NO (fillQuantity m) d
  in
  update_matched_order m d.

(** The two candidate queries and the two loops that fill [matches]. *)
Definition sellOrders (rq : request) (d : db) : list order :=
  select_candidates (market_id rq) (side rq) (price rq) true (user_id rq) d.
Definition mintOrders (rq : request) (d : db) : list order :=
  select_candidates (market_id rq) (opposite (side rq)) (100 - price rq) false
    (user_id rq) d.

Definition plan (rq : request) (d : db) : list MatchResult * Z :=
  let '(ms1, r1) := walk true (sellOrders rq d) (quantity rq) in
  let '(ms2, r2) := walk false (mintOrders rq d) r1 in
  (ms1 ++ ms2, r2).

(** Everything below the [===== MATCHING =====] banner. *)
Definition matching (rq : request) (effectiveLeagueId : option uuid) (d : db)
    : response * db :=
  let '(matches, remainingQuantity) := plan rq d in
  let d := foldl (execute_match rq effectiveLeagueId) d matches in
  let d :=
    if 0 <? remainingQuantity then
      insert_order (market_id rq) (user_id rq) (side rq) (price rq)
        (quantity rq) remainingQuantity false d
    else d in
  (Success (quantity rq - remainingQuantity) remainingQuantity (length matches), d).

Definition effective_league (lg : uuid) (m : market) : option uuid :=
  if truthy lg then Some lg else mkt_league_id m.

Definition serve (rq : request) (d : db) : response * db :=
  if hasUnvotedMarket (user_id rq) d then
    (Error 403 "You must vote on all pending markets before trading", d)
  else
  let isAdmin := is_admin (user_id rq) d in
  if negb (truthy (market_id rq)) || negb (truthy (user_id rq))
     || (price rq =? 0) || (quantity rq =? 0) then
    (Error 400 "Missing required fields", d)
  else if (price rq <? 1) || (99 <? price rq) then
    (Error 400 "Price must be between 1 and 99", d)
  else if quantity rq <? 1 then
    (Error 400 "Quantity must be at least 1", d)
  else
  match select_market (market_id rq) d with
  | None => (Error 404 "Market not found", d)
  | Some market =>
    if negb (bool_decide (mkt_status market = OPEN)) then
      (Error 400 "Market is not open for trading", d)
    else
    let effectiveLeagueId := effective_league (league_id rq) market in
    let member := select_member effectiveLeagueId (user_id rq) d in
    let totalCost := costPerShare (side rq) (price rq) * quantity rq in
    if isAdmin then matching rq effectiveLeagueId d
    else
      match member with
      | None => (Error 400 "Not a member of this league", d)
      | Some token_balance =>
        if token_balance <? totalCost then (Error 400 "Insufficient balance", d)
        else
          matching rq effectiveLeagueId
            (update_member effectiveLeagueId (user_id rq)
               (token_balance - totalCost) d)
      end
  end.

End PlaceOrder.

(** ** sell-position *)

Module SellPosition.

Record request := Request {
  market_id : uuid;
  user_id : uuid;
  side_to_sell : order_side;
  price : Z;
  quantity : Z;
  league_id : uuid;
}.

Inductive response :=
| Error (status : Z) (message : string)
| Success (matched remaining : Z) (trades : nat).

Record MatchedTrade := Matched { buyer_user_id : uuid; mt_quantity : Z }.
Record OrderUpdate := Update { ou_id : nat; ou_remaining_quantity : Z }.

(** [for (const buyOrder of matchingBuyOrders)]: fills [matchedTrades] and
    [orderUpdates] in step. *)
Fixpoint walk (candidates : list order) (remainingQuantity : Z)
    : list MatchedTrade * list OrderUpdate * Z :=
  match candidates with
  | [] => ([], [], remainingQuantity)
  | buyOrder :: rest =>
    if remainingQuantity =? 0 then ([], [], remainingQuantity)
    else
      let fillQuantity := Z.min remainingQuantity (ord_remaining_quantity buyOrder) in
      let '(ts, us, r) := walk rest (remainingQuantity - fillQuantity) in
      (Matched (ord_user_id buyOrder) fillQuantity :: ts,
       Update (ord_id buyOrder) (ord_remaining_quantity buyOrder - fillQuantity) :: us,
       r)
  end.

Definition matchingBuyOrders (rq : request) (d : db) : list order :=
  select_candidates (market_id rq) (side_to_sell rq) (price rq) false (user_id rq) d.

(** Body of [for (const trade of matchedTrades)]. *)
Definition execute_trade (rq : request) (effectiveLeagueId : option uuid)
    (d : db) (t : MatchedTrade) : db :=
  let yes_u := match side_to_sell rq with YES => buyer_user_id t | NO => user_id rq end in
  let no_u := match side_to_sell rq with NO => buyer_user_id t | YES => user_id rq end in
  let d := insert_trade (market_id rq) yes_u no_u (price rq) (mt_quantity t) d in
  let saleProceeds :=
    PlaceOrder.costPerShare (side_to_sell rq) (price rq) * mt_quantity t in
  let d := credit_member effectiveLeagueId (user_id rq) saleProceeds d in
  PlaceOrder.give_shares (market_id rq) (buyer_user_id t) (side_to_sell rq)
    (mt_quantity t) d.

(** Body of [for (const update of orderUpdates)]. *)
Definition apply_update (d : db) (u : OrderUpdate) : db :=
  if ou_remaining_quantity u =? 0 then delete_order (ou_id u) d
  else update_order_remaining (ou_id u) (ou_remaining_quantity u) d.

(** Everything from the [// Escrow] comment on, given the position read. *)
Definition escrow_and_match (rq : request) (effectiveLeagueId : option uuid)
    (pos : position) (d : db) : response * db :=
  let d := update_position (pos_id pos)
             (set_shares (side_to_sell rq)
                (shares_of (side_to_sell rq) pos - quantity rq)) d in
  let '(matchedTrades, orderUpdates, remainingQuantity) :=
    walk (matchingBuyOrders rq d) (quantity rq) in
  let d := foldl (execute_trade rq effectiveLeagueId) d matchedTrades in
  let d := foldl apply_update d orderUpdates in
  let d :=
    if 0 <? remainingQuantity then
      insert_order (market_id rq) (user_id rq) (side_to_sell rq) (price rq)
        (quantity rq) remainingQuantity true d
    else d in
  (Success (quantity rq - remainingQuantity) remainingQuantity
     (length matchedTrades), d).

Definition serve (rq : request) (d : db) : response * db :=
  if negb (truthy (market_id rq)) || negb (truthy (user_id rq))
     || (price rq =? 0) || (quantity rq =? 0) then
    (Error 400 "Missing required fields", d)
  else if (price rq <? 1) || (99 <? price rq) then
    (Error 400 "Price must be between 1 and 99", d)
  else
  match select_market (market_id rq) d with
  | None => (Error 404 "Market not found", d)
  | Some market =>
    if negb (bool_decide (mkt_status market = OPEN)) then
      (Error 400 "Market is not open for trading", d)
    else
    let effectiveLeagueId := PlaceOrder.effective_league (league_id rq) market in
    match select_position (market_id rq) (user_id rq) d with
    | None => (Error 400 "No position found", d)
    | Some position =>
      let availableShares := shares_of (side_to_sell rq) position in
      if availableShares <? quantity rq then
        (Error 400 "Not enough shares to sell", d)
      else escrow_and_match rq effectiveLeagueId position d
    end
  end.

End SellPosition.

(** ** resolve-market *)

Module ResolveMarket.

Local Open Scope Q_scope.

Record request := Request {
  market_id : uuid;
  outcome : option order_side;
  admin_user_id : uuid;
}.

Inductive response :=
| Error (status : Z) (message : string)
| Rejected
| Resolved (outcome : order_side) (payouts refunds : Z).

Definition Qlt_bool (x y : Q) : bool := negb (Qle_bool y x).

Definition count_Q {A} (l : list A) : Q := inject_Z (Z.of_nat (length l)).

(** The weighted tally, from [let yesWeightedTotal = 0] down to
    [yesPercentage]. *)
Definition weighted_totals (w : settings) (adminUserIds : gset uuid)
    (vs : list vote) : Q * Q :=
  let yesVoters := filter (λ v, vt_vote v = YES) vs in
  let noVoters := filter (λ v, vt_vote v = NO) vs in
  let nonAdminYesVoters := filter (λ v, vt_user_id v ∉ adminUserIds) yesVoters in
  let nonAdminNoVoters := filter (λ v, vt_user_id v ∉ adminUserIds) noVoters in
  let totalNonAdminVoters := count_Q nonAdminYesVoters + count_Q nonAdminNoVoters in
  let '(y0, n0) :=
    if Qlt_bool 0 totalNonAdminVoters then
      (0 + yes_bloc_weight w * (count_Q nonAdminYesVoters / totalNonAdminVoters),
       0 + no_bloc_weight w * (count_Q nonAdminNoVoters / totalNonAdminVoters))
    else (0, 0) in
  foldl (λ '(y, n) v,
           if bool_decide (vt_user_id v ∈ adminUserIds) then
             match vt_vote v with
             | YES => (y + admin_weight w, n)
             | NO => (y, n + admin_weight w)
             end
           else (y, n))
        (y0, n0) vs.

Definition yesPercentage (w : settings) (adminUserIds : gset uuid)
    (vs : list vote) : Q :=
  let '(yesWeightedTotal, noWeightedTotal) := weighted_totals w adminUserIds vs in
  let totalWeightedVotes := yesWeightedTotal + noWeightedTotal in
  if Qlt_bool 0 totalWeightedVotes
  then yesWeightedTotal / totalWeightedVotes * 100
  else 0.

(** [settings?.yes_bloc_weight ?? 49.5] and its two siblings. *)
Definition weights (d : db) : settings :=
  match voting_settings d with
  | Some w => w
  | None => Settings (99 # 2) (99 # 2) 1
  end.

Local Close Scope Q_scope.

(** The stake-return loop, for the voters of choice [c]. *)
Definition return_stakes (c : order_side) (leagueId : option uuid)
    (vs : list vote) (d : db) : db :=
  foldl (λ d v,
           if bool_decide (vt_vote v = c) && (0 <? vt_stake_amount v)
              && bool_decide (is_Some leagueId)
           then credit_member leagueId (vt_user_id v) (vt_stake_amount v) d
           else d)
        d vs.

Definition reopen (m : market) : market :=
  Market (mkt_id m) OPEN (mkt_resolved_outcome m) (mkt_league_id m) None None None.

Definition mark_resolved (o : order_side) (m : market) : market :=
  Market (mkt_id m) RESOLVED (Some o) (mkt_league_id m) (mkt_reported_at m)
    (mkt_reported_by m) (mkt_evidence_url m).

(** [for (const position of allPositions)], threading [totalPayouts]. *)
Definition pay_position (resolveOutcome : order_side) (leagueId : option uuid)
    (acc : db * Z) (p : position) : db * Z :=
  let '(d, totalPayouts) := acc in
  let winningShares := shares_of resolveOutcome p in
  if (0 <? winningShares) && bool_decide (is_Some leagueId) then
    let payout := winningShares * 100 in
    match select_member leagueId (pos_user_id p) d with
    | Some bal =>
      (update_member leagueId (pos_user_id p) (bal + payout) d, totalPayouts + payout)
    | None => (d, totalPayouts)
    end
  else (d, totalPayouts).

(** [for (const order of openOrders)], threading [totalRefunds]. *)
Definition refund_order (leagueId : option uuid) (acc : db * Z) (o : order)
    : db * Z :=
  let '(d, totalRefunds) := acc in
  let refund := PlaceOrder.costPerShare (ord_side o) (ord_price o)
                * ord_remaining_quantity o in
  let '(d, totalRefunds) :=
    if bool_decide (is_Some leagueId) then
      match select_member leagueId (ord_user_id o) d with
      | Some bal =>
        (update_member leagueId (ord_user_id o) (bal + refund) d, totalRefunds + refund)
      | None => (d, totalRefunds)
      end
    else (d, totalRefunds) in
  (delete_order (ord_id o) d, totalRefunds).

(** Everything below the [===== RESOLVE MARKET =====] banner. *)
Definition resolve (mk : uuid) (leagueId : option uuid)
    (resolveOutcome : order_side) (d : db) : response * db :=
  let d := update_market mk (mark_resolved resolveOutcome) d in
  let allPositions := select_positions mk d in
  let '(d, totalPayouts) :=
    foldl (pay_position resolveOutcome leagueId) (d, 0) allPositions in
  let openOrders := select_open_orders mk d in
  let '(d, totalRefunds) := foldl (refund_order leagueId) (d, 0) openOrders in
  (Resolved resolveOutcome totalPayouts totalRefunds, d).

Definition is_stakeholder (p : position) : bool :=
  (0 <? pos_yes_shares p) || (0 <? pos_no_shares p).

Definition allVoted (mk : uuid) (d : db) : bool :=
  let stakeholders := List.filter is_stakeholder (select_positions mk d) in
  let votedUserIds : gset uuid := list_to_set (vt_user_id <$> select_votes mk d) in
  forallb (λ s, bool_decide (pos_user_id s ∈ votedUserIds)) stakeholders.

Definition serve (rq : request) (d : db) : response * db :=
  match outcome rq with
  | None => (Error 400 "Missing required fields", d)
  | Some requested =>
  if negb (truthy (market_id rq)) then (Error 400 "Missing required fields", d)
  else
  match select_market (market_id rq) d with
  | None => (Error 404 "Market not found", d)
  | Some market =>
    let leagueId := mkt_league_id market in
    let w := weights d in
    if truthy (admin_user_id rq) then
      if negb (is_admin (admin_user_id rq) d) then (Error 403 "Not authorized", d)
      else resolve (market_id rq) leagueId requested d
    else
      if negb (bool_decide (mkt_status market = VOTING)) then
        (Error 400 "Market is not in voting status", d)
      else
      let vs := select_votes (market_id rq) d in
      match vs with
      | [] => (Error 400 "No votes yet", d)
      | _ =>
        if negb (allVoted (market_id rq) d) then
          (Error 400 "Not all stakeholders have voted yet", d)
        else if Qle_bool (yesPercentage w (admins d) vs) 50 then
          let d := return_stakes NO leagueId vs d in
          let d := update_market (market_id rq) reopen d in
          let d := delete_votes (market_id rq) d in
          (Rejected, d)
        else
          let d := return_stakes YES leagueId vs d in
          resolve (market_id rq) leagueId YES d
      end
  end
  end.

End ResolveMarket.

(** ** Further statements of the store

    Statements that only the lifecycle and admin handlers issue. *)

Module StoreMore.

(** [delete from orders / trades / positions where market_id = mk]. *)
Definition delete_market_orders (mk : uuid) (d : db) : db :=
  set_orders (filter (λ o, ord_market_id o ≠ mk)) d.
Definition delete_market_trades (mk : uuid) (d : db) : db :=
  set_trades (filter (λ t, trd_market_id t ≠ mk)) d.
Definition delete_market_positions (mk : uuid) (d : db) : db :=
  set_positions (filter (λ p, pos_market_id p ≠ mk)) d.

(** [delete from markets where id = mk]; the four tables that reference
    the market do so ON DELETE CASCADE. *)
Definition delete_market (mk : uuid) (d : db) : db :=
  set_markets (filter (λ m, mkt_id m ≠ mk))
    (delete_votes mk
       (delete_market_positions mk
          (delete_market_trades mk (delete_market_orders mk d)))).

(** [insert into votes]; UNIQUE (market_id, user_id) guards the insert,
    and the caller looks at the error. *)
Definition insert_vote (mk u : uuid) (c : order_side) (stake : Z) (d : db)
    : bool * db :=
  if bool_decide (Exists (λ v, vt_market_id v = mk ∧ vt_user_id v = u) (votes d))
  then (false, d)
  else (true, set_votes (λ vs, vs ++ [Vote mk u c stake]) d).

End StoreMore.

Import StoreMore.

(** ** cancel-market *)

Module CancelMarket.

Record request := Request {
  market_id : uuid;
  admin_user_id : uuid;
}.

Inductive response :=
| Error (status : Z) (message : string)
| Success (refunded_orders : nat).

(** Body of [for (const order of openOrders)]. *)
Definition refund_order (leagueId : option uuid) (d : db) (o : order) : db :=
  let refund := PlaceOrder.costPerShare (ord_side o) (ord_price o)
                * ord_remaining_quantity o in
  let d :=
    if bool_decide (is_Some leagueId)
    then credit_member leagueId (ord_user_id o) refund d
    else d in
  delete_order (ord_id o) d.

Definition mark_cancelled (m : market) : market :=
  Market (mkt_id m) CANCELLED (mkt_resolved_outcome m) (mkt_league_id m)
    (mkt_reported_at m) (mkt_reported_by m) (mkt_evidence_url m).

Definition serve (rq : request) (d : db) : response * db :=
  if negb (truthy (market_id rq)) || negb (truthy (admin_user_id rq)) then
    (Error 400 "Missing required fields", d)
  else if negb (is_admin (admin_user_id rq) d) then
    (Error 403 "Not authorized - admin only", d)
  else
  match select_market (market_id rq) d with
  | None => (Error 404 "Market not found", d)
  | Some market =>
    if bool_decide (mkt_status market = RESOLVED)
       || bool_decide (mkt_status market = CANCELLED) then
      (Error 400 "Market is already resolved or cancelled", d)
    else
    let leagueId := mkt_league_id market in
    let openOrders := select_open_orders (market_id rq) d in
    let d := foldl (refund_order leagueId) d openOrders in
    let d := update_market (market_id rq) mark_cancelled d in
    (Success (length openOrders), d)
  end.

End CancelMarket.

(** ** check-market-expiry *)

Module CheckMarketExpiry.

(** What the sweep reads beyond the tables of the trading handlers: the
    [closes_at] column of [markets], by market id and in milliseconds
    (absent for a null deadline), and the [no_resolve_timeout_minutes]
    column of the settings row (absent when there is no row). *)
Record deadlines := Deadlines {
  closes_at : gmap uuid Z;
  no_resolve_timeout_minutes : option Z;
}.

Inductive response :=
| NoExpired
| Success (resolved : nat).

Definition cutoffTime (dl : deadlines) (d : db) : Z :=
  let timeoutMinutes := default 60 (no_resolve_timeout_minutes dl) in
  now d - timeoutMinutes * 60 * 1000.

(** [eq status OPEN, lt closes_at cutoffTime], and [eq id] when the
    request names a market. *)
Definition expired (specificMarketId : uuid) (dl : deadlines) (cutoff : Z)
    (m : market) : Prop :=
  mkt_status m = OPEN ∧
  (∃ t, closes_at dl !! mkt_id m = Some t ∧ t < cutoff) ∧
  (truthy specificMarketId = true → mkt_id m = specificMarketId).

#[global] Instance expired_dec specific dl cutoff m :
  Decision (expired specific dl cutoff m).
Proof.
  unfold expired. apply and_dec; [apply _|]. apply and_dec; [|apply _].
  destruct (closes_at dl !! mkt_id m) as [t|].
  - destruct (decide (t < cutoff)); [left; eauto|right].
    by intros (? & [= <-] & ?).
  - right. by intros (? & ? & ?).
Defined.

(** The first inner loop: NO shareholders get 100 tokens per share. *)
Definition pay_position (leagueId : option uuid) (d : db) (p : position) : db :=
  if (0 <? pos_no_shares p) && bool_decide (is_Some leagueId)
  then credit_member leagueId (pos_user_id p) (pos_no_shares p * 100) d
  else d.

(** Body of [for (const market of expiredMarkets)]. *)
Definition settle (d : db) (market : market) : db :=
  let leagueId := mkt_league_id market in
  let d := update_market (mkt_id market) (ResolveMarket.mark_resolved NO) d in
  let positions := select_positions (mkt_id market) d in
  let d := foldl (pay_position leagueId) d positions in
  let openOrders := select_open_orders (mkt_id market) d in
  foldl (CancelMarket.refund_order leagueId) d openOrders.

Definition expiredMarkets (specificMarketId : uuid) (dl : deadlines) (d : db)
    : list market :=
  filter (expired specificMarketId dl (cutoffTime dl d)) (markets d).

Definition serve (specificMarketId : uuid) (dl : deadlines) (d : db)
    : response * db :=
  match expiredMarkets specificMarketId dl d with
  | [] => (NoExpired, d)
  | ms => (Success (length ms), foldl settle d ms)
  end.

End CheckMarketExpiry.

(** ** admin-actions

    The balance and market actions.  [seed_market] draws random orders, and
    [delete_league], [delete_user] and [impersonate] work on the [users]
    and [leagues] tables; they are not part of this development. *)

Module AdminActions.

(** The action name with the payload fields it reads; a payload field
    that may be [undefined] is an option. *)
Inductive action :=
| set_balance (user_id : uuid) (amount : option Z) (league_id : uuid)
| give_tokens (user_id : uuid) (amount : option Z) (league_id : uuid)
| reset_market (market_id : uuid)
| delete_market (market_id : uuid)
| unknown (name : string).

Record request := Request {
  admin_user_id : uuid;
  act : action;
}.

Inductive response :=
| Error (status : Z) (message : string)
| BalanceSet (amount : Z)
| Gave (amount new_balance : Z)
| MarketReset
| MarketDeleted.

Definition reset (m : market) : market :=
  Market (mkt_id m) OPEN None (mkt_league_id m) None None None.

(** The four deletes that open both [reset_market] and [delete_market]. *)
Definition clear_market (mk : uuid) (d : db) : db :=
  delete_market_positions mk
    (delete_market_trades mk (delete_market_orders mk (delete_votes mk d))).

Definition serve (rq : request) (d : db) : response * db :=
  if negb (truthy (admin_user_id rq))
     || match act rq with unknown name => negb (truthy name) | _ => false end
  then (Error 400 "Missing required fields", d)
  else if negb (is_admin (admin_user_id rq) d) then
    (Error 403 "Not authorized - admin only", d)
  else
  match act rq with
  | set_balance user_id amount league_id =>
    match amount with
    | Some amount =>
      if negb (truthy user_id) || negb (truthy league_id) then
        (Error 400 "Missing user_id, amount, or league_id", d)
      else (BalanceSet amount, update_member (Some league_id) user_id amount d)
    | None => (Error 400 "Missing user_id, amount, or league_id", d)
    end
  | give_tokens user_id amount league_id =>
    match amount with
    | Some amount =>
      if negb (truthy user_id) || (amount =? 0) || negb (truthy league_id) then
        (Error 400 "Missing user_id, amount, or league_id", d)
      else
        match select_member (Some league_id) user_id d with
        | None => (Error 500 "User not found in this league", d)
        | Some token_balance =>
          (Gave amount (token_balance + amount),
           update_member (Some league_id) user_id (token_balance + amount) d)
        end
    | None => (Error 400 "Missing user_id, amount, or league_id", d)
    end
  | reset_market market_id =>
    if negb (truthy market_id) then (Error 400 "Missing market_id", d)
    else (MarketReset, update_market market_id reset (clear_market market_id d))
  | delete_market market_id =>
    if negb (truthy market_id) then (Error 400 "Missing market_id", d)
    else (MarketDeleted, StoreMore.delete_market market_id (clear_market market_id d))
  | unknown name => (Error 400 ("Unknown action: " +:+ name), d)
  end.

End AdminActions.

(** ** The client-side writers

    Three handlers of the web client write to the store directly.  Each is
    a function of the component state it reads (named as in the component)
    and of the store. *)

(** MarketDetailPage.handleReportOutcome, after the evidence upload. *)
Module MarketDetailPage.

Inductive toast := Moved | AlreadyMoved.

Definition mark_reported (user : uuid) (evidenceUrl : option string) (at_ : Z)
    (m : market) : market :=
  Market (mkt_id m) VOTING (mkt_resolved_outcome m) (mkt_league_id m)
    (Some at_) (Some user) evidenceUrl.

(** [update markets set ... where id = market.id and status = 'OPEN'],
    with [.select()] returning the rows updated. *)
Definition handleReportOutcome (market : uuid) (user : uuid)
    (evidenceUrl : option string) (d : db) : toast * db :=
  let data :=
    filter (λ m, mkt_id m = market ∧ mkt_status m = OPEN) (markets d) in
  let d :=
    set_markets (fmap (λ m,
      if decide (mkt_id m = market ∧ mkt_status m = OPEN)
      then mark_reported user evidenceUrl (now d) m else m)) d in
  match data with
  | [] => (AlreadyMoved, d)
  | _ => (Moved, d)
  end.

(** What [fetchData] leaves in the component state and the page hands to
    the trading panel as props: the user's open orders of the market, by
    descending price, and the user's position. *)
Definition price_descending (a b : order) : Prop := ord_price b ≤ ord_price a.

#[global] Instance price_descending_dec : RelDecision price_descending.
Proof. intros a b. unfold price_descending. apply _. Defined.

Definition fetched_orders (market : uuid) (d : db) : list order :=
  merge_sort price_descending (select_open_orders market d).

Definition panel_orders (market user : uuid) (d : db) : list order :=
  filter (λ o, ord_user_id o = user) (fetched_orders market d).

Definition panel_position (market user : uuid) (d : db) : option position :=
  select_position market user d.

End MarketDetailPage.

(** VotingModal.handleVote. *)
Module VotingModal.

Inductive toast := InsufficientBalance | VoteFailed | Voted.

(** [Math.floor(positionValue * stakePercentage / 100)], with
    [stake_percentage] the [numeric] column of [voting_settings], an exact
    rational here, and 5 when there is no settings row. *)
Definition stakeFor (stake_percentage : option Q) (positionData : position) : Z :=
  let stakePercentage := default 5%Q stake_percentage in
  let positionValue := (pos_yes_shares positionData + pos_no_shares positionData) * 100 in
  Qfloor (inject_Z positionValue * stakePercentage / 100)%Q.

(** [for (const market of votingMarkets)]: the first market without a
    vote of the user in which the user holds shares, with the position
    and the stake the dialog will ask for. *)
Fixpoint firstPending (user : uuid) (votedMarketIds : gset uuid)
    (stake_percentage : option Q) (d : db) (votingMarkets : list market)
    : option (market * position * Z) :=
  match votingMarkets with
  | [] => None
  | market :: rest =>
    if bool_decide (mkt_id market ∈ votedMarketIds)
    then firstPending user votedMarketIds stake_percentage d rest
    else
      match select_position (mkt_id market) user d with
      | Some positionData =>
        if (0 <? pos_yes_shares positionData) || (0 <? pos_no_shares positionData)
        then Some (market, positionData, stakeFor stake_percentage positionData)
        else firstPending user votedMarketIds stake_percentage d rest
      | None => firstPending user votedMarketIds stake_percentage d rest
      end
  end.

(** VotingModal.checkForPendingVotes: what it leaves in [pendingMarket],
    [userPosition] and [stakeAmount]; [None] is the closed dialog. *)
Definition checkForPendingVotes (user currentLeague : uuid)
    (stake_percentage : option Q) (d : db) : option (market * position * Z) :=
  if negb (truthy user) || negb (truthy currentLeague) then None
  else
    let votingMarkets :=
      filter (λ m, mkt_status m = VOTING ∧ mkt_league_id m = Some currentLeague)
        (markets d) in
    let userVotes := filter (λ v, vt_user_id v = user) (votes d) in
    let votedMarketIds : gset uuid := list_to_set (vt_market_id <$> userVotes) in
    firstPending user votedMarketIds stake_percentage d votingMarkets.

(** [pendingMarket], [currentLeague] and [stakeAmount] are component
    state, [user] comes from the auth context. *)
Definition handleVote (pendingMarket currentLeague user : uuid)
    (stakeAmount : Z) (vote : order_side) (d : db) : toast * db :=
  let escrow :=
    if 0 <? stakeAmount then
      match select_member (Some currentLeague) user d with
      | None => None
      | Some token_balance =>
        if token_balance <? stakeAmount then None
        else Some (update_member (Some currentLeague) user
                     (token_balance - stakeAmount) d)
      end
    else Some d in
  match escrow with
  | None => (InsufficientBalance, d)
  | Some d =>
    match insert_vote pendingMarket user vote stakeAmount d with
    | (false, d) =>
      (VoteFailed,
       if 0 <? stakeAmount
       then credit_member (Some currentLeague) user stakeAmount d
       else d)
    | (true, d) =>
      let stakeholders :=
        List.filter ResolveMarket.is_stakeholder (select_positions pendingMarket d) in
      if ResolveMarket.allVoted pendingMarket d && (0 <? length stakeholders)%nat
      then (Voted,
            (ResolveMarket.serve
               (ResolveMarket.Request pendingMarket (Some YES) "") d).2)
      else (Voted, d)
    end
  end.

End VotingModal.

(** TradingPanel.handleCancelOrder. *)
Module TradingPanel.

(** [orders] and [position] are the props of the panel. *)
Definition handleCancelOrder (orders : list order) (position : option position)
    (orderId : nat) (d : db) : db :=
  match List.find (λ o, bool_decide (ord_id o = orderId)) orders with
  | None => d
  | Some order =>
    let d := delete_order orderId d in
    if ord_is_sell_order order then
      match position with
      | Some position =>
        update_position (pos_id position)
          (set_shares (ord_side order)
             (shares_of (ord_side order) position + ord_remaining_quantity order))
          d
      | None => d
      end
    else d
  end.




End TradingPanel.

(** OrderBook.aggregateOrders: the price levels the order book shows. *)
Module OrderBook.

Record AggregatedOrder := Aggregated {
  price : Z;
  quantity : Z;
  isOwn : bool;
  isSell : bool;
}.

(** Body of [filtered.forEach]; [byPrice] is the object keyed by price. *)
Definition add_order (userId : option uuid) (byPrice : gmap Z (Z * bool))
    (o : order) : gmap Z (Z * bool) :=
  let entry := default (0, false) (byPrice !! ord_price o) in
  <[ord_price o :=
      (entry.1 + ord_remaining_quantity o,
       entry.2 || bool_decide (Some (ord_user_id o) = userId))]> byPrice.

(** The comparator of the final sort: asks by ascending price, bids by
    descending price. *)
Definition level_before (sell : bool) (a b : AggregatedOrder) : Prop :=
  if sell then price a ≤ price b else price b ≤ price a.

#[global] Instance level_before_dec sell : RelDecision (level_before sell).
Proof. intros a b. unfold level_before. destruct sell; apply _. Defined.

Definition aggregateOrders (userId : option uuid) (orderList : list order)
    (isSell : bool) : list AggregatedOrder :=
  let filtered := filter (λ o, ord_is_sell_order o = isSell) orderList in
  let byPrice := foldl (add_order userId) ∅ filtered in
  merge_sort (level_before isSell)
    ((λ e, Aggregated e.1 e.2.1 e.2.2 isSell) <$> map_to_list byPrice).

End OrderBook.

(** ** Vocabulary of the statements *)

(** The match the fill loops push for candidate [c] with fill [f]; [t]
    tells the direct-transfer pass from the mint pass. *)
Definition match_of (t : bool) (c : order) (f : Z) : PlaceOrder.MatchResult :=
  PlaceOrder.Match (ord_id c) (ord_user_id c) f t (ord_remaining_quantity c).

(** Quantity filled by a list of matches. *)
Definition total_fill (ms : list PlaceOrder.MatchResult) : Z :=
  foldr (λ m acc, PlaceOrder.fillQuantity m + acc) 0 ms.

(** The trade row the execution loop of place-order writes for a match. *)
Definition trade_of (rq : PlaceOrder.request) (m : PlaceOrder.MatchResult) : trade :=
  Trade (PlaceOrder.market_id rq)
    (PlaceOrder.yesUserId (PlaceOrder.side rq) (PlaceOrder.user_id rq) (PlaceOrder.orderUserId m))
    (PlaceOrder.noUserId (PlaceOrder.side rq) (PlaceOrder.user_id rq) (PlaceOrder.orderUserId m))
    (if PlaceOrder.isContractTransfer m then PlaceOrder.transferPrice rq
     else PlaceOrder.tradePrice rq)
    (PlaceOrder.fillQuantity m).


(** ** Example stores *)

Module Examples.

(** The direct-sale scenario: alice rests a YES sell of 3 at 55, carol a
    later one; bob, with 1000 tokens, and the admin root place buys. *)
Definition alice_sell : order := Order 1 "m1" "alice" YES 55 3 3 true 1.
Definition carol_sell : order := Order 2 "m1" "carol" YES 55 3 3 true 2.

Definition direct_sale : db :=
  Db [Market "m1" OPEN None (Some "L") None None None]
     [alice_sell; carol_sell] [] [] []
     {[ ("L", "alice") := 0; ("L", "bob") := 1000; ("L", "root") := 70 ]}
     {[ "root" ]} None 10 100.

Definition bob_buys : PlaceOrder.request :=
  PlaceOrder.Request "m1" "bob" YES 55 2 "L".
Definition root_buys : PlaceOrder.request :=
  PlaceOrder.Request "m1" "root" YES 55 7 "L".

(** The vote-rejection scenario: two stakeholders of five shares each have
    staked 50 tokens, alice on YES and bob on NO, under the default bloc
    weights; alice also has a buy order resting. *)
Definition contested_vote : db :=
  Db [Market "m1" VOTING None (Some "L") (Some 5) (Some "alice") (Some "proof.png");
      Market "m2" OPEN None (Some "L") None None None]
     [Order 1 "m1" "alice" YES 55 3 3 false 1]
     []
     [Position 1 "m1" "alice" 5 0; Position 2 "m1" "bob" 0 5]
     [Vote "m1" "alice" YES 50; Vote "m1" "bob" NO 50]
     {[ ("L", "alice") := 450; ("L", "bob") := 450 ]}
     {[ "root" ]} None 10 100.

Definition tally_m1 : ResolveMarket.request :=
  ResolveMarket.Request "m1" (Some YES) "".
Definition force_yes_m1 : ResolveMarket.request :=
  ResolveMarket.Request "m1" (Some YES) "root".

Definition after_force_yes : db :=
  (ResolveMarket.serve force_yes_m1 contested_vote).2.

(** A NO book at nominal price 40: alice offers one NO share for sale and
    carol bids for one YES share at the complementary price; bob buys two
    NO shares at 40. *)
Definition no_book : db :=
  Db [Market "m1" OPEN None (Some "L") None None None]
     [Order 1 "m1" "alice" NO 40 1 1 true 1;
      Order 2 "m1" "carol" YES 60 1 1 false 2]
     [] [] []
     {[ ("L", "alice") := 0; ("L", "bob") := 1000; ("L", "carol") := 0 ]}
     ∅ None 10 100.

Definition bob_buys_no : PlaceOrder.request :=
  PlaceOrder.Request "m1" "bob" NO 40 2 "L".

(** alice holds five YES shares of the OPEN market m1, while market m2 is
    in VOTING and she has not voted on it. *)
Definition holder_pending : db :=
  Db [Market "m1" OPEN None (Some "L") None None None;
      Market "m2" VOTING None (Some "L") (Some 5) (Some "bob") None]
     [] []
     [Position 1 "m1" "alice" 5 0]
     []
     {[ ("L", "alice") := 1000 ]}
     ∅ None 10 100.

Definition alice_buys : PlaceOrder.request :=
  PlaceOrder.Request "m1" "alice" YES 55 1 "L".
Definition alice_sells : SellPosition.request :=
  SellPosition.Request "m1" "alice" YES 55 2 "L".
Definition alice_sells_negative : SellPosition.request :=
  SellPosition.Request "m1" "alice" YES 55 (-5) "L".

(** The same holder with no vote pending anywhere. *)
Definition holder : db :=
  Db [Market "m1" OPEN None (Some "L") None None None]
     [] []
     [Position 1 "m1" "alice" 5 0]
     []
     {[ ("L", "alice") := 1000 ]}
     ∅ None 10 100.

End Examples.

(** ** Further example stores *)

Module MoreExamples.

Definition cancel_m1 : CancelMarket.request :=
  CancelMarket.Request "m1" "root".

(** Market m1 closed two hours before [now] and is still OPEN; bob holds
    four NO shares of it and alice has a buy order resting. *)
Definition overdue : db :=
  Db [Market "m1" OPEN None (Some "L") None None None;
      Market "m2" OPEN None (Some "L") None None None]
     [Order 1 "m1" "alice" YES 55 3 3 false 1]
     []
     [Position 1 "m1" "alice" 5 0; Position 2 "m1" "bob" 0 4]
     []
     {[ ("L", "alice") := 100; ("L", "bob") := 100 ]}
     {[ "root" ]} None 10 10000000.

Definition overdue_deadlines : CheckMarketExpiry.deadlines :=
  CheckMarketExpiry.Deadlines {[ "m1" := 2800000; "m2" := 20000000 ]} None.

(** alice holds five YES shares and bob bids for two at 55. *)
Definition sell_book : db :=
  Db [Market "m1" OPEN None (Some "L") None None None]
     [Order 1 "m1" "bob" YES 55 2 2 false 1]
     []
     [Position 1 "m1" "alice" 5 0]
     []
     {[ ("L", "alice") := 100; ("L", "bob") := 0 ]}
     ∅ None 10 100.


(** Two holders of market m1, which is in VOTING, have both voted NO. *)
Definition all_no : db :=
  Db [Market "m1" VOTING None (Some "L") (Some 5) (Some "alice") None]
     [] []
     [Position 1 "m1" "alice" 5 0; Position 2 "m1" "bob" 0 5]
     [Vote "m1" "alice" NO 50; Vote "m1" "bob" NO 50]
     {[ ("L", "alice") := 450; ("L", "bob") := 450 ]}
     {[ "root" ]} None 10 100.

(** The same market before bob has voted. *)
Definition one_vote : db :=
  Db [Market "m1" VOTING None (Some "L") (Some 5) (Some "alice") None]
     [] []
     [Position 1 "m1" "alice" 5 0; Position 2 "m1" "bob" 0 5;
      Position 3 "m1" "carol" 1 0]
     [Vote "m1" "alice" NO 50]
     {[ ("L", "alice") := 450; ("L", "bob") := 500; ("L", "carol") := 10 ]}
     {[ "root" ]} None 10 100.

End MoreExamples.

(** ** Vocabulary of the further statements *)



(** A balance after a credit of [x]; a user without a membership row has
    none before and none after. *)
Definition credited (x : Z) (balance : option Z) : option Z :=
  (λ b, b + x) <$> balance.


(** The admin loop of the weighted tally, one vote at a time. *)
Definition tally_step (w : settings) (adminUserIds : gset uuid)
    : Q * Q → vote → Q * Q :=
  λ '(y, n) v,
    if bool_decide (vt_user_id v ∈ adminUserIds) then
      match vt_vote v with
      | YES => ((y + admin_weight w)%Q, n)
      | NO => (y, (n + admin_weight w)%Q)
      end
    else (y, n).






(** What the orders [os] offer at price [p], and whether one of them is
    the viewer's. *)
Definition level_quantity (p : Z) (os : list order) : Z :=
  foldr (λ o acc, (if bool_decide (ord_price o = p)
                   then ord_remaining_quantity o else 0) + acc) 0 os.

Definition level_own (userId : option uuid) (p : Z) (os : list order) : bool :=
  existsb (λ o, bool_decide (ord_price o = p) && bool_decide (Some (ord_user_id o) = userId)) os.

Definition level_present (p : Z) (os : list order) : bool :=
  existsb (λ o, bool_decide (ord_price o = p)) os.

(** A market row after a sweep that settled the markets [ms]. *)
Definition swept (ms : list market) (x : market) : market :=
  if decide (mkt_id x ∈ mkt_id <$> ms) then ResolveMarket.mark_resolved NO x else x.

(** * Properties *)

(** ** Store lemmas: which statement touches which table *)

Section store_frames.
Implicit Types (d : db) (lg : option uuid) (u mk : uuid).

Lemma select_member_update lg u v lg' u' d :
  select_member lg' u' (update_member lg u v d) =
  if decide (lg' = lg ∧ u' = u) then (λ _, v) <$> select_member lg' u' d
  else select_member lg' u' d.
Proof.
  destruct lg as [l|], lg' as [l'|]; simpl;
    [rewrite lookup_alter | ..]; repeat case_decide; naive_solver.
Qed.

Lemma select_member_credit lg u x lg' u' d :
  select_member lg' u' (credit_member lg u x d) =
  if decide (lg' = lg ∧ u' = u) then (λ b, b + x) <$> select_member lg' u' d
  else select_member lg' u' d.
Proof.
  unfold credit_member.
  destruct (select_member lg u d) as [bal|] eqn:E.
  - rewrite select_member_update. case_decide as H; [|done].
    destruct H as [-> ->]. by rewrite E.
  - case_decide as H; [|done]. destruct H as [-> ->]. by rewrite E.
Qed.

Lemma select_member_credit_other lg u x lg' u' d :
  u' ≠ u → select_member lg' u' (credit_member lg u x d) = select_member lg' u' d.
Proof. intros. rewrite select_member_credit. case_decide; naive_solver. Qed.

Lemma members_insert_trade mk y n p q d :
  league_members (insert_trade mk y n p q d) = league_members d.
Proof. unfold insert_trade. by case_bool_decide. Qed.

Lemma members_insert_order mk u sd p q r sell d :
  league_members (insert_order mk u sd p q r sell d) = league_members d.
Proof. unfold insert_order. by case_bool_decide. Qed.

Lemma trades_insert_order mk u sd p q r sell d :
  trades (insert_order mk u sd p q r sell d) = trades d.
Proof. unfold insert_order. by case_bool_decide. Qed.


Lemma members_update_order_remaining oid r d :
  league_members (update_order_remaining oid r d) = league_members d.
Proof. unfold update_order_remaining. by case_bool_decide. Qed.

Lemma members_update_position pid f d :
  league_members (update_position pid f d) = league_members d.
Proof. done. Qed.

Lemma members_insert_position mk u y n d :
  league_members (insert_position mk u y n d) = league_members d.
Proof. unfold insert_position. by case_bool_decide. Qed.

Lemma members_give_shares mk u sd q d :
  league_members (PlaceOrder.give_shares mk u sd q d) = league_members d.
Proof.
  unfold PlaceOrder.give_shares. destruct (select_position mk u d); [done|].
  apply members_insert_position.
Qed.

Lemma members_update_matched_order m d :
  league_members (PlaceOrder.update_matched_order m d) = league_members d.
Proof.
  unfold PlaceOrder.update_matched_order.
  case_match; [done | apply members_update_order_remaining].
Qed.

(** [select_member] only looks at [league_members]. *)
Lemma select_member_ext lg u d d' :
  league_members d' = league_members d →
  select_member lg u d' = select_member lg u d.
Proof. intros E. unfold select_member. by rewrite E. Qed.

Lemma positions_credit_member lg u x d :
  positions (credit_member lg u x d) = positions d.
Proof.
  unfold credit_member, update_member.
  destruct (select_member lg u d); [|done]. by destruct lg.
Qed.

Lemma positions_update_member lg u v d :
  positions (update_member lg u v d) = positions d.
Proof. by destruct lg. Qed.

Lemma orders_update_member lg u v d :
  orders (update_member lg u v d) = orders d.
Proof. by destruct lg. Qed.

Lemma orders_credit_member lg u x d :
  orders (credit_member lg u x d) = orders d.
Proof.
  unfold credit_member. destruct (select_member lg u d); [|done].
  apply orders_update_member.
Qed.

Lemma trades_update_member lg u v d :
  trades (update_member lg u v d) = trades d.
Proof. by destruct lg. Qed.

Lemma trades_credit_member lg u x d :
  trades (credit_member lg u x d) = trades d.
Proof.
  unfold credit_member. destruct (select_member lg u d); [|done].
  apply trades_update_member.
Qed.

Lemma markets_update_member lg u v d :
  markets (update_member lg u v d) = markets d.
Proof. by destruct lg. Qed.

Lemma markets_credit_member lg u x d :
  markets (credit_member lg u x d) = markets d.
Proof.
  unfold credit_member. destruct (select_member lg u d); [|done].
  apply markets_update_member.
Qed.

Lemma votes_update_member lg u v d :
  votes (update_member lg u v d) = votes d.
Proof. by destruct lg. Qed.

End store_frames.

(** ** The candidate query *)

Section candidates.
#[local] Instance created_before_total : Total created_before.
Proof. intros a b. unfold created_before. lia. Qed.

#[local] Instance created_before_trans : Transitive created_before.
Proof. intros a b c. unfold created_before. lia. Qed.

Lemma elem_of_select_candidates mk sd p sell excluded d o :
  o ∈ select_candidates mk sd p sell excluded d ↔
  o ∈ orders d ∧ candidate mk sd p sell excluded o.
Proof.
  unfold select_candidates. rewrite merge_sort_Permutation.
  rewrite list_elem_of_filter. tauto.
Qed.


Lemma select_candidates_ext mk sd p sell excluded d d' :
  orders d' = orders d →
  select_candidates mk sd p sell excluded d' =
  select_candidates mk sd p sell excluded d.
Proof. intros E. unfold select_candidates. by rewrite E. Qed.
End candidates.

(** ** The fill loop of place-order *)

Section place_order_walk.
Import PlaceOrder.

Lemma walk_zero t cands : walk t cands 0 = ([], 0).
Proof. by destruct cands. Qed.

(** Every match comes from a candidate of the list walked. *)
Lemma walk_elem_of t cands q m :
  m ∈ (walk t cands q).1 →
  ∃ c, c ∈ cands ∧ m = match_of t c (fillQuantity m).
Proof.
  revert q. induction cands as [|c rest IH]; intros q; simpl.
  - by intros ?%elem_of_nil.
  - destruct (Z.eqb_spec q 0) as [|Hq]; [by intros ?%elem_of_nil|].
    destruct (walk t rest _) as [ms r] eqn:E. simpl.
    intros [->|Hm]%elem_of_cons.
    + exists c. split; [left|done].
    + specialize (IH (q - Z.min q (ord_remaining_quantity c))).
      rewrite E in IH. destruct (IH Hm) as (c' & ? & ?).
      exists c'. split; [by right|done].
Qed.
End place_order_walk.

Section place_order_fill.
Import PlaceOrder.

Lemma total_fill_app ms1 ms2 :
  total_fill (ms1 ++ ms2) = total_fill ms1 + total_fill ms2.
Proof. induction ms1 as [|m ms1 IH]; simpl; lia. Qed.

(** What is left after a walk, and when the walk stops. *)
Lemma walk_remaining t cands q :
  0 ≤ q → Forall (λ c, 0 < ord_remaining_quantity c) cands →
  (walk t cands q).2 = q - total_fill (walk t cands q).1 ∧
  0 ≤ (walk t cands q).2 ∧
  (length (walk t cands q).1 ≤ length cands)%nat ∧
  ((walk t cands q).2 = 0 ∨ length (walk t cands q).1 = length cands).
Proof.
  intros Hq Hpos. revert q Hq.
  induction Hpos as [|c rest Hc Hrest IH]; intros q Hq; simpl.
  - split_and!; [lia | lia | lia | by right].
  - destruct (Z.eqb_spec q 0) as [->|Hq0]; simpl.
    { split_and!; [lia | lia | lia | by left]. }
    set (f := Z.min q (ord_remaining_quantity c)).
    destruct (IH (q - f)) as (E1 & E2 & E3 & E4); [lia|].
    destruct (walk t rest (q - f)) as [ms r]. simpl in *.
    split_and!; [lia | lia | lia | ].
    destruct E4; [by left | right; lia].
Qed.

(** The [i]-th match is against the [i]-th candidate, for the smaller of
    what is still wanted and what the candidate still offers. *)
Lemma walk_lookup t cands q i m :
  0 ≤ q → Forall (λ c, 0 < ord_remaining_quantity c) cands →
  (walk t cands q).1 !! i = Some m →
  ∃ c, cands !! i = Some c ∧
    m = match_of t c
          (Z.min (q - total_fill (take i (walk t cands q).1))
                 (ord_remaining_quantity c)) ∧
    0 < fillQuantity m.
Proof.
  intros Hq Hpos. revert q i Hq.
  induction Hpos as [|c rest Hc Hrest IH]; intros q i Hq; simpl; [done|].
  destruct (Z.eqb_spec q 0) as [->|Hq0]; simpl; [done|].
  set (f := Z.min q (ord_remaining_quantity c)).
  specialize (IH (q - f)).
  destruct (walk t rest (q - f)) as [ms r]. simpl in *.
  destruct i as [|i]; simpl.
  - intros [= <-]. exists c. split; [done|]. simpl.
    rewrite Z.sub_0_r. split; [done|lia].
  - intros Hm. destruct (IH i) as (c' & Hc' & Hm' & Hf); [lia|done|].
    exists c'. split; [done|]. split; [|done].
    rewrite Hm'. f_equal. f_equal. simpl. lia.
Qed.

Lemma candidates_positive mk sd p sell excluded d :
  Forall (λ c, 0 < ord_remaining_quantity c)
    (select_candidates mk sd p sell excluded d).
Proof.
  apply Forall_forall. intros c [_ Hc]%elem_of_select_candidates.
  apply Hc.
Qed.

Lemma plan_unfold rq d :
  plan rq d =
  ((walk true (sellOrders rq d) (quantity rq)).1 ++
   (walk false (mintOrders rq d) (walk true (sellOrders rq d) (quantity rq)).2).1,
   (walk false (mintOrders rq d) (walk true (sellOrders rq d) (quantity rq)).2).2).
Proof.
  unfold plan. destruct (walk true _ _) as [ms1 r1]. simpl.
  by destruct (walk false _ _).
Qed.


Lemma plan_lookup rq d i m :
  0 ≤ quantity rq →
  (plan rq d).1 !! i = Some m →
  ∃ c, (sellOrders rq d ++ mintOrders rq d) !! i = Some c ∧
    m = match_of (bool_decide (i < length (sellOrders rq d))%nat) c
          (Z.min (quantity rq - total_fill (take i (plan rq d).1))
                 (ord_remaining_quantity c)) ∧
    0 < fillQuantity m.
Proof.
  intros Hq. rewrite plan_unfold. simpl.
  pose proof (walk_remaining true (sellOrders rq d) (quantity rq) Hq
                (candidates_positive _ _ _ _ _ _)) as (E1 & E2 & E3 & E4).
  set (ms1 := (walk true (sellOrders rq d) (quantity rq)).1) in *.
  set (r1 := (walk true (sellOrders rq d) (quantity rq)).2) in *.
  intros Hm. destruct (decide (i < length ms1)%nat) as [Hi|Hi].
  - rewrite lookup_app_l in Hm by done.
    apply walk_lookup in Hm as (c & Hc & -> & Hf);
      [|done|apply candidates_positive].
    exists c. rewrite lookup_app_l by lia. split; [done|].
    rewrite take_app_le by lia. rewrite bool_decide_eq_true_2 by lia. done.
  - rewrite lookup_app_r in Hm by lia.
    destruct E4 as [E4|E4].
    { rewrite E4, walk_zero in Hm. done. }
    apply walk_lookup in Hm as (c & Hc & -> & Hf);
      [|done|apply candidates_positive].
    exists c. rewrite lookup_app_r by lia. rewrite <- E4. split; [done|].
    rewrite take_app_ge by lia. rewrite total_fill_app.
    rewrite bool_decide_eq_false_2 by lia.
    split; [|done]. f_equal. f_equal. lia.
Qed.

(** Every match is against an order that is not the acting user's. *)
Lemma plan_counterparty rq d m :
  m ∈ (plan rq d).1 → orderUserId m ≠ user_id rq.
Proof.
  rewrite plan_unfold. simpl.
  intros [Hm|Hm]%elem_of_app;
    apply walk_elem_of in Hm as (c & [_ Hc]%elem_of_select_candidates & ->);
    apply Hc.
Qed.
End place_order_fill.

(** ** Executing the matches of place-order *)

Section place_order_execute.
Import PlaceOrder.

Ltac frame :=
  unfold execute_match, give_shares, update_matched_order, insert_position,
    insert_trade, insert_order, update_order_remaining, delete_order,
    update_position, credit_member, update_member;
  repeat (case_match || case_bool_decide); try done.

Lemma trades_give_shares mk u sd q d :
  trades (give_shares mk u sd q d) = trades d.
Proof. frame. Qed.

Lemma trades_update_matched_order m d :
  trades (update_matched_order m d) = trades d.
Proof. frame. Qed.



(** A match pays the owner of the matched order and nobody else. *)
Lemma select_member_execute_match rq lg d m lg' u' :
  u' ≠ orderUserId m →
  select_member lg' u' (execute_match rq lg d m) = select_member lg' u' d.
Proof.
  intros Hne. unfold execute_match.
  rewrite (select_member_ext _ _ _ _ (members_update_matched_order _ _)).
  destruct (isContractTransfer m).
  - rewrite (select_member_ext _ _ _ _ (members_give_shares _ _ _ _ _)).
    rewrite select_member_credit_other by done.
    apply select_member_ext, members_insert_trade.
  - rewrite !(select_member_ext _ _ _ _ (members_give_shares _ _ _ _ _)).
    apply select_member_ext, members_insert_trade.
Qed.

Lemma select_member_execute_matches rq lg ms d lg' u' :
  Forall (λ m, orderUserId m ≠ u') ms →
  select_member lg' u' (foldl (execute_match rq lg) d ms) = select_member lg' u' d.
Proof.
  intros H. revert d. induction H as [|m ms Hm _ IH]; intros d; simpl; [done|].
  rewrite IH. by apply select_member_execute_match.
Qed.

(** Matching never moves the balance of the user who placed the order,
    in any league. *)
Lemma select_member_matching rq lg d lg' :
  select_member lg' (user_id rq) (matching rq lg d).2 =
  select_member lg' (user_id rq) d.
Proof.
  unfold matching. destruct (plan rq d) as [ms r] eqn:E. simpl.
  assert (Forall (λ m, orderUserId m ≠ user_id rq) ms) as Hms.
  { apply Forall_forall. intros m Hm. apply (plan_counterparty rq d).
    by rewrite E. }
  case_match.
  - rewrite (select_member_ext _ _ _ _ (members_insert_order _ _ _ _ _ _ _ _)).
    apply select_member_execute_matches.
    eapply Forall_impl; [done|]. naive_solver.
  - apply select_member_execute_matches.
    eapply Forall_impl; [done|]. naive_solver.
Qed.

(** The one trade row a match writes (when the schema accepts it). *)
Lemma trades_execute_match rq lg d m :
  trades (execute_match rq lg d m) =
  trades d ++
    (if bool_decide (1 ≤ trd_price (trade_of rq m) ≤ 99 ∧ 0 < fillQuantity m)
     then [trade_of rq m] else []).
Proof.
  unfold execute_match. rewrite trades_update_matched_order.
  unfold trade_of. destruct (isContractTransfer m); simpl.
  - rewrite trades_give_shares, trades_credit_member.
    unfold insert_trade. case_bool_decide; simpl; by rewrite ?app_nil_r.
  - rewrite !trades_give_shares.
    unfold insert_trade. case_bool_decide; simpl; by rewrite ?app_nil_r.
Qed.

Lemma trades_execute_matches rq lg ms d t :
  t ∈ trades (foldl (execute_match rq lg) d ms) →
  t ∈ trades d ∨ ∃ m, m ∈ ms ∧ t = trade_of rq m.
Proof.
  revert d. induction ms as [|m ms IH]; intros d; simpl; [by left|].
  intros [Ht|(m' & ? & ?)]%IH.
  - rewrite trades_execute_match in Ht.
    apply elem_of_app in Ht as [?|Ht]; [by left|].
    case_bool_decide; [|by apply elem_of_nil in Ht].
    apply list_elem_of_singleton in Ht. right. exists m. split; [left|done].
  - right. exists m'. split; [by right|done].
Qed.

Lemma trades_matching rq lg d t :
  t ∈ trades (matching rq lg d).2 →
  t ∈ trades d ∨ ∃ m, m ∈ (plan rq d).1 ∧ t = trade_of rq m.
Proof.
  unfold matching. destruct (plan rq d) as [ms r]. simpl.
  case_match; rewrite ?trades_insert_order; apply trades_execute_matches.
Qed.



(** The shape of every run of the handler: an error that leaves the
    store alone, or validated input, an OPEN market, the escrow step and
    then [matching]. *)
Lemma serve_inv rq d r d' :
  serve rq d = (r, d') →
  (∃ st msg, r = Error st msg ∧ d' = d) ∨
  (hasUnvotedMarket (user_id rq) d = false ∧
   1 ≤ price rq ≤ 99 ∧ 1 ≤ quantity rq ∧
   ∃ market, select_market (market_id rq) d = Some market ∧
     mkt_status market = OPEN ∧
     let lg := effective_league (league_id rq) market in
     let totalCost := costPerShare (side rq) (price rq) * quantity rq in
     (is_admin (user_id rq) d = true ∧ matching rq lg d = (r, d')) ∨
     (is_admin (user_id rq) d = false ∧
      ∃ bal, select_member lg (user_id rq) d = Some bal ∧ totalCost ≤ bal ∧
        matching rq lg (update_member lg (user_id rq) (bal - totalCost) d)
        = (r, d'))).
Proof.
  unfold serve.
  destruct (hasUnvotedMarket _ _); [intros [= <- <-]; left; eauto|].
  destruct (negb (truthy (market_id rq)) || _ || _ || _);
    [intros [= <- <-]; left; eauto|].
  destruct ((price rq <? 1) || (99 <? price rq)) eqn:Hprice;
    [intros [= <- <-]; left; eauto|].
  destruct (Z.ltb_spec (quantity rq) 1); [intros [= <- <-]; left; eauto|].
  apply orb_false_iff in Hprice as [?%Z.ltb_ge ?%Z.ltb_ge].
  destruct (select_market _ _) as [market|]; [|intros [= <- <-]; left; eauto].
  case_bool_decide as Hopen; simpl; [|intros [= <- <-]; left; eauto].
  destruct (is_admin _ _).
  { intros Hrun. right. split_and!; [done|lia|lia|lia|].
    exists market. split_and!; [done|done|]. by left. }
  destruct (select_member _ _ _) as [bal|] eqn:Hbal;
    [|intros [= <- <-]; left; eauto].
  destruct (Z.ltb_spec bal (costPerShare (side rq) (price rq) * quantity rq));
    [intros [= <- <-]; left; eauto|].
  intros Hrun. right. split_and!; [done|lia|lia|lia|].
  exists market. split_and!; [done|done|]. right. split; [done|].
  exists bal. done.
Qed.
End place_order_execute.

(** ** sell-position *)

Section sell_position.
Import SellPosition.

Ltac frame :=
  unfold execute_trade, apply_update, PlaceOrder.give_shares, insert_position,
    insert_trade, insert_order, update_order_remaining, delete_order,
    update_position, credit_member, update_member;
  repeat (case_match || case_bool_decide); try done.

Lemma sell_walk_elem_of cands q t :
  t ∈ (walk cands q).1.1 →
  ∃ c, c ∈ cands ∧ buyer_user_id t = ord_user_id c.
Proof.
  revert q. induction cands as [|c rest IH]; intros q; simpl.
  - by intros ?%elem_of_nil.
  - destruct (Z.eqb_spec q 0) as [|Hq]; [by intros ?%elem_of_nil|].
    specialize (IH (q - Z.min q (ord_remaining_quantity c))).
    destruct (walk rest _) as [[ts us] r]. simpl in *.
    intros [->|Ht]%elem_of_cons.
    + exists c. split; [left|done].
    + destruct (IH Ht) as (c' & ? & ?). exists c'. split; [by right|done].
Qed.

Lemma sell_counterparty rq d t :
  t ∈ (walk (matchingBuyOrders rq d) (quantity rq)).1.1 →
  buyer_user_id t ≠ user_id rq.
Proof.
  intros (c & [_ Hc]%elem_of_select_candidates & ->)%sell_walk_elem_of.
  apply Hc.
Qed.

Lemma trades_apply_updates us d :
  trades (foldl apply_update d us) = trades d.
Proof.
  revert d. induction us as [|u us IH]; intros d; simpl; [done|].
  rewrite IH. frame.
Qed.

Lemma trades_execute_trades rq lg ts d t :
  t ∈ trades (foldl (execute_trade rq lg) d ts) →
  t ∈ trades d ∨
  ∃ mt, mt ∈ ts ∧ trd_price t = price rq ∧
    trd_yes_user_id t =
      match side_to_sell rq with YES => buyer_user_id mt | NO => user_id rq end ∧
    trd_no_user_id t =
      match side_to_sell rq with NO => buyer_user_id mt | YES => user_id rq end.
Proof.
  revert d. induction ts as [|mt ts IH]; intros d; simpl; [by left|].
  intros [Ht|(mt' & ? & ?)]%IH.
  - unfold execute_trade in Ht.
    rewrite trades_give_shares, trades_credit_member in Ht.
    unfold insert_trade in Ht. case_bool_decide; [|by left].
    simpl in Ht. apply elem_of_app in Ht as [?|Ht]; [by left|].
    apply list_elem_of_singleton in Ht as ->.
    right. exists mt. split; [left|done].
  - right. exists mt'. split; [by right|done].
Qed.

(** A run that ends in an error has not written to the store. *)
Lemma sell_serve_error rq d st msg d' :
  serve rq d = (Error st msg, d') → d' = d.
Proof.
  unfold serve, escrow_and_match.
  repeat case_match; (by intros [= _ _ <-]) || (by intros [=]).
Qed.

(** Every trade a sell writes has the seller on one side and the owner
    of a matched buy order, who is someone else, on the other. *)
Lemma trades_sell_serve rq d t :
  t ∈ trades (serve rq d).2 →
  t ∈ trades d ∨ trd_yes_user_id t ≠ trd_no_user_id t.
Proof.
  unfold serve.
  repeat (case_match; try by left). unfold escrow_and_match.
  set (d1 := update_position _ _ d).
  destruct (walk (matchingBuyOrders rq d1) (quantity rq)) as [[ts us] r] eqn:E.
  simpl. intros Ht.
  assert (t ∈ trades (foldl apply_update
            (foldl (execute_trade rq (PlaceOrder.effective_league (league_id rq) m)) d1 ts) us))
    as Ht'.
  { revert Ht. case_match; [|done]. by rewrite trades_insert_order. }
  rewrite trades_apply_updates in Ht'.
  apply trades_execute_trades in Ht' as [?|(mt & Hmt & _ & Hy & Hn)]; [by left|].
  right. rewrite Hy, Hn.
  assert (buyer_user_id mt ≠ user_id rq) as Hne.
  { apply (sell_counterparty rq d1). by rewrite E. }
  destruct (side_to_sell rq); congruence.
Qed.
End sell_position.

(** ** resolve-market *)

Section resolve_market.
Import ResolveMarket.


Ltac frame :=
  unfold pay_position, refund_order, delete_order, update_member;
  repeat case_match; simplify_eq; try done.

Lemma foldl_frame {A B T} (proj : db → T) (step : db * B → A → db * B) l acc :
  (∀ acc x, proj (step acc x).1 = proj acc.1) →
  proj (foldl step acc l).1 = proj acc.1.
Proof.
  intros H. revert acc. induction l as [|x l IH]; intros acc; simpl; [done|].
  by rewrite IH, H.
Qed.

Lemma return_stakes_frame {T} (proj : db → T) c lg vs d :
  (∀ lg u x d, proj (credit_member lg u x d) = proj d) →
  proj (return_stakes c lg vs d) = proj d.
Proof.
  intros H. unfold return_stakes. revert d.
  induction vs as [|v vs IH]; intros d; simpl; [done|].
  rewrite IH. case_match; [apply H|done].
Qed.

Lemma positions_pay_position o lg acc p :
  positions (pay_position o lg acc p).1 = positions acc.1.
Proof. destruct acc. frame; by destruct lg. Qed.

Lemma positions_refund_order lg acc o :
  positions (refund_order lg acc o).1 = positions acc.1.
Proof. destruct acc. frame; by destruct lg. Qed.



(** Settlement reads the positions and never writes them. *)
Lemma positions_resolve mk lg o d :
  positions (resolve mk lg o d).2 = positions d.
Proof.
  unfold resolve.
  destruct (foldl (pay_position o lg) _ _) as [d1 tp] eqn:E1.
  destruct (foldl (refund_order lg) _ _) as [d2 tr] eqn:E2. simpl.
  change d2 with (d2, tr).1. rewrite <- E2.
  rewrite (foldl_frame positions) by apply positions_refund_order. simpl.
  change d1 with (d1, tp).1. rewrite <- E1.
  by rewrite (foldl_frame positions) by apply positions_pay_position.
Qed.



(** Updating the row of market [mk] with a function that keeps its id. *)
Lemma select_market_update mk f d m :
  (∀ m, mkt_id (f m) = mkt_id m) →
  select_market mk d = Some m →
  select_market mk (update_market mk f d) = Some (f m).
Proof.
  intros Hid. unfold select_market, update_market. simpl.
  assert (filter (λ m, mkt_id m = mk)
            ((λ m, if decide (mkt_id m = mk) then f m else m) <$> markets d)
          = f <$> filter (λ m, mkt_id m = mk) (markets d)) as ->.
  { induction (markets d) as [|x l IH]; [done|].
    rewrite fmap_cons, !filter_cons, IH.
    destruct (decide (mkt_id x = mk)) as [Hx|Hx].
    - rewrite decide_True by (by rewrite Hid). done.
    - rewrite decide_False by done. done. }
  destruct (filter _ (markets d)) as [|x [|??]]; simpl; try done.
  by intros [= ->].
Qed.

Lemma select_market_ext mk d d' :
  markets d' = markets d → select_market mk d' = select_market mk d.
Proof. intros E. unfold select_market. by rewrite E. Qed.

Lemma select_votes_delete mk d : select_votes mk (delete_votes mk d) = [].
Proof.
  unfold select_votes, delete_votes. simpl. rewrite list_filter_filter.
  induction (votes d) as [|v vs IH]; [done|].
  rewrite filter_cons. case_decide; [naive_solver|done].
Qed.

(** Votes of other markets survive the deletion. *)
Lemma select_votes_delete_ne mk mk' d :
  mk' ≠ mk → select_votes mk' (delete_votes mk d) = select_votes mk' d.
Proof.
  intros Hne. unfold select_votes, delete_votes. simpl.
  rewrite list_filter_filter. apply list_filter_iff. naive_solver.
Qed.

(** ResolveMarket never writes to [positions]. *)
Lemma positions_resolve_serve rq d :
  positions (serve rq d).2 = positions d.
Proof.
  unfold serve. repeat case_match; cbn [snd]; try done.
  - apply positions_resolve.
  - cbn [delete_votes update_market set_votes set_markets positions].
    by rewrite (return_stakes_frame positions)
      by apply positions_credit_member.
  - rewrite positions_resolve.
    by rewrite (return_stakes_frame positions)
      by apply positions_credit_member.
Qed.

(** The admin branch goes straight to settlement, whatever the status of
    the market. *)
Lemma serve_admin rq d o m :
  outcome rq = Some o → truthy (market_id rq) = true →
  truthy (admin_user_id rq) = true →
  is_admin (admin_user_id rq) d = true →
  select_market (market_id rq) d = Some m →
  serve rq d = resolve (market_id rq) (mkt_league_id m) o d.
Proof.
  intros Ho Hmk Ha Hadm Hm. unfold serve. by rewrite Ho, Hmk, Hm, Ha, Hadm.
Qed.

(** Without a single vote row the tally is not attempted. *)
Lemma serve_no_votes rq d o m :
  outcome rq = Some o → truthy (market_id rq) = true →
  truthy (admin_user_id rq) = false →
  select_market (market_id rq) d = Some m →
  mkt_status m = VOTING →
  select_votes (market_id rq) d = [] →
  serve rq d = (Error 400 "No votes yet", d).
Proof.
  intros Ho Hmk Ha Hm Hst Hvs. unfold serve.
  rewrite Ho, Hmk, Hm, Ha, Hst, Hvs. by rewrite bool_decide_eq_true_2.
Qed.

(** Outside VOTING the tally path refuses and writes nothing. *)
Lemma serve_not_voting rq d o m :
  outcome rq = Some o → truthy (market_id rq) = true →
  truthy (admin_user_id rq) = false →
  select_market (market_id rq) d = Some m →
  mkt_status m ≠ VOTING →
  serve rq d = (Error 400 "Market is not in voting status", d).
Proof.
  intros Ho Hmk Ha Hm Hst. unfold serve. rewrite Ho, Hmk, Hm, Ha. simpl.
  by rewrite bool_decide_eq_false_2.
Qed.
End resolve_market.

(** * The claims *)

Section claims_place_order.
Import PlaceOrder.

Lemma plan_ext rq d d' : orders d' = orders d → plan rq d' = plan rq d.
Proof.
  intros E. unfold plan, sellOrders, mintOrders.
  by rewrite !(select_candidates_ext _ _ _ _ _ _ _ E).
Qed.

(** C3. A successful buy by a non-admin user debits that user's
    balance in the effective league by exactly [price * quantity] for
    YES and [(100 - price) * quantity] for NO.  The debit comes first:
    the run is [matching] started from the debited store, matching does
    not move the buyer's balance, and so the balance after the run is
    the balance before minus the cost. *)
Theorem buy_escrow_exact rq d matched remaining n d' :
  is_admin (user_id rq) d = false →
  serve rq d = (Success matched remaining n, d') →
  ∃ market bal,
    select_market (market_id rq) d = Some market ∧
    1 ≤ price rq ≤ 99 ∧ 1 ≤ quantity rq ∧
    let lg := effective_league (league_id rq) market in
    let cost := match side rq with
                | YES => price rq * quantity rq
                | NO => (100 - price rq) * quantity rq
                end in
    let escrowed := update_member lg (user_id rq) (bal - cost) d in
    select_member lg (user_id rq) d = Some bal ∧
    select_member lg (user_id rq) escrowed = Some (bal - cost) ∧
    matching rq lg escrowed = (Success matched remaining n, d') ∧
    select_member lg (user_id rq) d' = Some (bal - cost).
Proof.
  intros Hadm Hrun.
  apply serve_inv in Hrun as [(? & ? & ? & _)|(_ & Hp & Hq & market & Hm & _ & Hrun)];
    [done|].
  simpl in Hrun. destruct Hrun as [[? _]|(_ & bal & Hbal & _ & Hrun)]; [congruence|].
  exists market, bal.
  assert (costPerShare (side rq) (price rq) * quantity rq =
          match side rq with
          | YES => price rq * quantity rq
          | NO => (100 - price rq) * quantity rq
          end) as <- by (by destruct (side rq)).
  set (lg := effective_league (league_id rq) market) in *.
  set (cost := costPerShare (side rq) (price rq) * quantity rq) in *.
  assert (select_member lg (user_id rq) (update_member lg (user_id rq) (bal - cost) d)
          = Some (bal - cost)) as Hesc.
  { rewrite select_member_update, decide_True by done. by rewrite Hbal. }
  split_and!; [done | lia | lia | lia |]. cbv zeta.
  split_and!; [done | done | done |].
  replace d' with (matching rq lg (update_member lg (user_id rq) (bal - cost) d)).2
    by (by rewrite Hrun).
  by rewrite select_member_matching.
Qed.

Lemma buy_escrow_exact_witness :
  is_admin "bob" Examples.direct_sale = false ∧
  serve Examples.bob_buys Examples.direct_sale
  = (Success 2 0 1, (serve Examples.bob_buys Examples.direct_sale).2) ∧
  select_member (Some "L") "bob" Examples.direct_sale = Some 1000 ∧
  select_member (Some "L") "bob" (serve Examples.bob_buys Examples.direct_sale).2
  = Some (1000 - 55 * 2).
Proof.
  assert (is_admin "bob" Examples.direct_sale = false) as Hadm
    by (vm_compute; reflexivity).
  assert (serve Examples.bob_buys Examples.direct_sale
          = (Success 2 0 1, (serve Examples.bob_buys Examples.direct_sale).2)) as Hrun
    by (vm_compute; reflexivity).
  split_and!; [exact Hadm | exact Hrun | vm_compute; reflexivity |].
  destruct (buy_escrow_exact Examples.bob_buys Examples.direct_sale 2 0 1 _ Hadm Hrun)
    as (market & bal & Hm & _ & _ & Hbal & _ & _ & Hend).
  vm_compute in Hm. injection Hm as <-.
  vm_compute in Hbal. injection Hbal as <-.
  exact Hend.
Defined.

(** C10. A successful buy by an admin runs [matching] on the store as it
    was found, with no escrow step, and leaves the admin's balance in
    every league exactly as it was, whatever the price, the quantity and
    the part of the order that matched or rests. *)
Theorem admin_buy_no_debit rq d matched remaining n d' :
  is_admin (user_id rq) d = true →
  serve rq d = (Success matched remaining n, d') →
  (∃ market, select_market (market_id rq) d = Some market ∧
     matching rq (effective_league (league_id rq) market) d
     = (Success matched remaining n, d')) ∧
  ∀ lg, select_member lg (user_id rq) d' = select_member lg (user_id rq) d.
Proof.
  intros Hadm Hrun.
  apply serve_inv in Hrun as [(? & ? & ? & _)|(_ & Hp & Hq & market & Hm & _ & Hrun)];
    [done|].
  simpl in Hrun. destruct Hrun as [[_ Hrun]|(? & _)]; [|congruence].
  split; [by exists market|]. intros lg.
  replace d' with (matching rq (effective_league (league_id rq) market) d).2
    by (by rewrite Hrun).
  apply select_member_matching.
Qed.

Lemma admin_buy_no_debit_witness :
  is_admin "root" Examples.direct_sale = true ∧
  serve Examples.root_buys Examples.direct_sale
  = (Success 6 1 2, (serve Examples.root_buys Examples.direct_sale).2) ∧
  select_member (Some "L") "root" (serve Examples.root_buys Examples.direct_sale).2
  = select_member (Some "L") "root" Examples.direct_sale.
Proof.
  assert (is_admin "root" Examples.direct_sale = true) as Hadm
    by (vm_compute; reflexivity).
  assert (serve Examples.root_buys Examples.direct_sale
          = (Success 6 1 2, (serve Examples.root_buys Examples.direct_sale).2)) as Hrun
    by (vm_compute; reflexivity).
  split_and!; [exact Hadm | exact Hrun |].
  apply (admin_buy_no_debit Examples.root_buys Examples.direct_sale 6 1 2 _ Hadm Hrun).
Defined.
End claims_place_order.

Section claims_matching.
Import PlaceOrder.

(** C9. No fill is against the acting user's own resting order.  The
    candidates of the direct-transfer pass, of the mint pass and of
    sell-order matching all exclude the acting user's orders; hence
    every match has another user as counterparty, and every trade row
    either handler writes has different users on its two sides. *)
Theorem no_self_trade :
  (∀ rq d o, o ∈ sellOrders rq d ++ mintOrders rq d → ord_user_id o ≠ user_id rq) ∧
  (∀ rq d o, o ∈ SellPosition.matchingBuyOrders rq d →
     ord_user_id o ≠ SellPosition.user_id rq) ∧
  (∀ rq d m, m ∈ (plan rq d).1 → orderUserId m ≠ user_id rq) ∧
  (∀ rq d t,
     t ∈ (SellPosition.walk (SellPosition.matchingBuyOrders rq d)
            (SellPosition.quantity rq)).1.1 →
     SellPosition.buyer_user_id t ≠ SellPosition.user_id rq) ∧
  (∀ rq d t, t ∈ trades (serve rq d).2 →
     t ∈ trades d ∨ trd_yes_user_id t ≠ trd_no_user_id t) ∧
  (∀ rq d t, t ∈ trades (SellPosition.serve rq d).2 →
     t ∈ trades d ∨ trd_yes_user_id t ≠ trd_no_user_id t).
Proof.
  split_and!.
  - intros rq d o [Ho|Ho]%elem_of_app;
      apply elem_of_select_candidates in Ho as [_ Ho]; apply Ho.
  - intros rq d o [_ Ho]%elem_of_select_candidates. apply Ho.
  - apply plan_counterparty.
  - apply sell_counterparty.
  - intros rq d t Ht.
    destruct (serve rq d) as [r d'] eqn:Hrun. simpl in Ht.
    apply serve_inv in Hrun
      as [(? & ? & _ & ->)|(_ & _ & _ & market & _ & _ & Hrun)]; [by left|].
    simpl in Hrun.
    assert (∃ lg d1, trades d1 = trades d ∧ plan rq d1 = plan rq d ∧
              d' = (matching rq lg d1).2) as (lg & d1 & Ht1 & Hpl & ->).
    { destruct Hrun as [[_ Hrun]|(_ & bal & _ & _ & Hrun)].
      - eexists _, d. by rewrite Hrun.
      - eexists _, _. rewrite Hrun. split_and!; [|apply plan_ext|done].
        + apply trades_update_member.
        + apply orders_update_member. }
    apply trades_matching in Ht as [Ht|(m & Hm & ->)]; [left; congruence|].
    right. rewrite Hpl in Hm. apply plan_counterparty in Hm.
    unfold trade_of, yesUserId, noUserId. simpl.
    destruct (side rq); congruence.
  - apply trades_sell_serve.
Qed.


End claims_matching.

Section claims_resolve_market.
Import ResolveMarket.




End claims_resolve_market.

(** ** Where the handlers part from the specification *)

Section divergences.

(** The pending-vote gate of place-order, spelled out. *)
Lemma hasUnvotedMarket_spec u d :
  PlaceOrder.hasUnvotedMarket u d = true ↔
  ∃ m, m ∈ markets d ∧ mkt_status m = VOTING ∧
    ∀ v, v ∈ votes d → vt_user_id v = u → vt_market_id v ≠ mkt_id m.
Proof.
  unfold PlaceOrder.hasUnvotedMarket.
  set (vm := filter (λ m, mkt_status m = VOTING) (markets d)).
  set (voted := list_to_set _ : gset uuid).
  assert (∀ m, mkt_id m ∉ voted ↔
            ∀ v, v ∈ votes d → vt_user_id v = u → vt_market_id v ≠ mkt_id m)
    as Hvoted.
  { intros m. unfold voted. rewrite elem_of_list_to_set, list_elem_of_fmap.
    setoid_rewrite list_elem_of_filter. naive_solver. }
  assert (existsb (λ m, bool_decide (mkt_id m ∉ voted)) vm = true ↔
          ∃ m, m ∈ markets d ∧ mkt_status m = VOTING ∧ mkt_id m ∉ voted) as Hex.
  { rewrite existsb_exists. setoid_rewrite <- list_elem_of_In.
    unfold vm. setoid_rewrite list_elem_of_filter.
    setoid_rewrite bool_decide_eq_true. naive_solver. }
  setoid_rewrite <- Hvoted. rewrite <- Hex.
  destruct vm; [done|done].
Qed.

(** A buy is refused, and nothing is written, while the gate holds. *)
Lemma pending_vote_blocks_buy rq d :
  PlaceOrder.hasUnvotedMarket (PlaceOrder.user_id rq) d = true →
  PlaceOrder.serve rq d =
  (PlaceOrder.Error 403 "You must vote on all pending markets before trading", d).
Proof. intros H. unfold PlaceOrder.serve. by rewrite H. Qed.

(** C6. With an unvoted market in VOTING, alice's buy is refused with
    the 403 of the pending-vote gate and writes nothing, but her sell of
    two YES shares at 55 goes through: sell-position has no such gate,
    escrows the two shares out of her position and rests a sell order. *)
Theorem sell_ignores_pending_vote :
  PlaceOrder.hasUnvotedMarket "alice" Examples.holder_pending = true ∧
  PlaceOrder.serve Examples.alice_buys Examples.holder_pending =
    (PlaceOrder.Error 403 "You must vote on all pending markets before trading",
     Examples.holder_pending) ∧
  (SellPosition.serve Examples.alice_sells Examples.holder_pending).1 =
    SellPosition.Success 0 2 0 ∧
  positions (SellPosition.serve Examples.alice_sells Examples.holder_pending).2 =
    [Position 1 "m1" "alice" 3 0] ∧
  orders (SellPosition.serve Examples.alice_sells Examples.holder_pending).2 =
    [Order 10 "m1" "alice" YES 55 2 2 true 100].
Proof. split_and!; vm_compute; reflexivity. Qed.

(** What sell-position does refuse: a zero quantity, and a quantity above
    the shares held; and a refused sell writes nothing. *)
Lemma sell_zero_quantity rq d :
  SellPosition.quantity rq = 0 →
  SellPosition.serve rq d = (SellPosition.Error 400 "Missing required fields", d).
Proof.
  intros H. unfold SellPosition.serve. rewrite H. simpl.
  by rewrite !orb_true_r.
Qed.

Lemma sell_insufficient_shares rq d market pos :
  truthy (SellPosition.market_id rq) = true →
  truthy (SellPosition.user_id rq) = true →
  1 ≤ SellPosition.price rq ≤ 99 →
  SellPosition.quantity rq ≠ 0 →
  select_market (SellPosition.market_id rq) d = Some market →
  mkt_status market = OPEN →
  select_position (SellPosition.market_id rq) (SellPosition.user_id rq) d = Some pos →
  shares_of (SellPosition.side_to_sell rq) pos < SellPosition.quantity rq →
  SellPosition.serve rq d = (SellPosition.Error 400 "Not enough shares to sell", d).
Proof.
  intros Hmk Hu Hp Hq0 Hm Hst Hpos Hlt. unfold SellPosition.serve.
  rewrite Hmk, Hu, Hm, Hst, Hpos. simpl.
  destruct (Z.eqb_spec (SellPosition.price rq) 0); [lia|].
  destruct (Z.eqb_spec (SellPosition.quantity rq) 0) as [Hq|_]; [done|].
  destruct (Z.ltb_spec (SellPosition.price rq) 1); [lia|].
  destruct (Z.ltb_spec 99 (SellPosition.price rq)); [lia|]. simpl.
  destruct (Z.ltb_spec (shares_of (SellPosition.side_to_sell rq) pos)
              (SellPosition.quantity rq)); [done|lia].
Qed.

(** C7. A negative quantity passes every check of sell-position: with
    five YES shares held, selling [-5] at 55 is answered with success,
    and the escrow step, which subtracts the quantity, leaves ten YES
    shares in the seller's position. *)
Theorem sell_negative_quantity_adds_shares :
  select_position "m1" "alice" Examples.holder = Some (Position 1 "m1" "alice" 5 0) ∧
  (SellPosition.serve Examples.alice_sells_negative Examples.holder).1 =
    SellPosition.Success 0 (-5) 0 ∧
  select_position "m1" "alice"
    (SellPosition.serve Examples.alice_sells_negative Examples.holder).2 =
    Some (Position 1 "m1" "alice" 10 0).
Proof. split_and!; vm_compute; reflexivity. Qed.

(** C5. One incoming NO buy at nominal price 40 that fills in both
    passes leaves two trades at two different prices: 40 from the
    direct-transfer pass, which records the nominal price as it is, and
    60 from the mint pass, which records [100 - price].  No single
    normalisation of the incoming order's price accounts for both. *)
Theorem trade_price_differs_between_passes :
  trades (PlaceOrder.serve Examples.bob_buys_no Examples.no_book).2 =
    [Trade "m1" "alice" "bob" 40 1; Trade "m1" "carol" "bob" 60 1] ∧
  PlaceOrder.transferPrice Examples.bob_buys_no = 40 ∧
  PlaceOrder.tradePrice Examples.bob_buys_no = 60 ∧
  ¬ ∃ yes_price : Z,
      ∀ t, t ∈ trades (PlaceOrder.serve Examples.bob_buys_no Examples.no_book).2 →
           trd_price t = yes_price.
Proof.
  assert (trades (PlaceOrder.serve Examples.bob_buys_no Examples.no_book).2 =
          [Trade "m1" "alice" "bob" 40 1; Trade "m1" "carol" "bob" 60 1]) as E
    by (vm_compute; reflexivity).
  split_and!; [exact E | reflexivity | reflexivity |].
  intros [p Hp]. rewrite E in Hp.
  pose proof (Hp _ (list_elem_of_here _ _)) as H1.
  pose proof (Hp _ (list_elem_of_further _ _ _ (list_elem_of_here _ _))) as H2.
  simpl in H1, H2. lia.
Qed.

(** C1. Force-resolving a market that is already RESOLVED is accepted
    and pays the positions a second time: alice's five YES shares earn
    her 500 tokens on the first call and 500 more on the second.  Only
    the order refund is not repeated, the orders being gone.  The tally
    path, by contrast, refuses a market that is not in VOTING and writes
    nothing. *)
Theorem force_resolve_twice_pays_twice :
  (ResolveMarket.serve Examples.force_yes_m1 Examples.contested_vote).1 =
    ResolveMarket.Resolved YES 500 165 ∧
  (mkt_status <$> select_market "m1" Examples.after_force_yes) = Some RESOLVED ∧
  (ResolveMarket.serve Examples.force_yes_m1 Examples.after_force_yes).1 =
    ResolveMarket.Resolved YES 500 0 ∧
  select_member (Some "L") "alice" Examples.contested_vote = Some 450 ∧
  select_member (Some "L") "alice" Examples.after_force_yes = Some (450 + 500 + 165) ∧
  select_member (Some "L") "alice"
    (ResolveMarket.serve Examples.force_yes_m1 Examples.after_force_yes).2 =
    Some (450 + 500 + 165 + 500) ∧
  ResolveMarket.serve Examples.tally_m1 Examples.after_force_yes =
    (ResolveMarket.Error 400 "Market is not in voting status",
     Examples.after_force_yes).
Proof. split_and!; vm_compute; reflexivity. Qed.

(** C8, as the claim states it: after the payout of market m1 alice's
    position still holds the five winning YES shares that were paid. *)
Lemma payout_leaves_winning_shares :
  select_position "m1" "alice" Examples.after_force_yes =
    Some (Position 1 "m1" "alice" 5 0) ∧
  ¬ (∀ p, p ∈ select_positions "m1" Examples.after_force_yes →
          shares_of YES p = 0).
Proof.
  split; [vm_compute; reflexivity|].
  intros H. specialize (H (Position 1 "m1" "alice" 5 0)).
  assert (Position 1 "m1" "alice" 5 0 ∈ select_positions "m1" Examples.after_force_yes)
    as Hin by (vm_compute; left).
  apply H in Hin. discriminate Hin.
Qed.

(** C8, amended. The settlement routine pays out of the positions it
    reads and writes none of them: after [resolve], and after any run of
    the handler, the positions table is exactly what it was, so no share
    count is reduced and no row is deleted. *)
Theorem settlement_keeps_positions :
  (∀ mk lg o d, positions (ResolveMarket.resolve mk lg o d).2 = positions d) ∧
  (∀ rq d, positions (ResolveMarket.serve rq d).2 = positions d).
Proof. split; [apply positions_resolve | apply positions_resolve_serve]. Qed.
End divergences.


(** * Further properties *)

(** ** Refund and payout loops *)

Section refunds.

Lemma credited_0 b : credited 0 b = b.
Proof. destruct b; simpl; [f_equal; lia|done]. Qed.

Lemma credited_credited x y b : credited y (credited x b) = credited (x + y) b.
Proof. destruct b; simpl; [f_equal; lia|done]. Qed.

Lemma filter_all {A} (P : A → Prop) `{∀ x, Decision (P x)} (l : list A) :
  (∀ x, x ∈ l → P x) → filter P l = l.
Proof.
  induction l as [|x l IH]; intros HP; [done|].
  rewrite filter_cons_True by (apply HP; left).
  f_equal. apply IH. intros y Hy. apply HP. by right.
Qed.

Lemma filter_none {A} (P : A → Prop) `{∀ x, Decision (P x)} (l : list A) :
  (∀ x, x ∈ l → ¬ P x) → filter P l = [].
Proof.
  induction l as [|x l IH]; intros HP; [done|].
  rewrite filter_cons_False by (apply HP; left).
  apply IH. intros y Hy. apply HP. by right.
Qed.



Lemma refund_orders_frame {T} (proj : db → T) lg os d :
  (∀ lg u x d, proj (credit_member lg u x d) = proj d) →
  (∀ oid d, proj (delete_order oid d) = proj d) →
  proj (foldl (CancelMarket.refund_order lg) d os) = proj d.
Proof.
  intros Hc Hd. revert d. induction os as [|o os IH]; intros d; simpl; [done|].
  rewrite IH. unfold CancelMarket.refund_order. rewrite Hd.
  case_bool_decide; [apply Hc|done].
Qed.


(** The two settlement loops of resolve-market, without their running
    totals. *)
Lemma resolve_refund_loop lg os d z :
  (foldl (ResolveMarket.refund_order lg) (d, z) os).1 =
  foldl (CancelMarket.refund_order lg) d os.
Proof.
  revert d z. induction os as [|o os IH]; intros d z; [done|].
  cbn [foldl].
  destruct (ResolveMarket.refund_order lg (d, z) o) as [d1 z1] eqn:E.
  rewrite IH. f_equal.
  unfold ResolveMarket.refund_order in E.
  unfold CancelMarket.refund_order, credit_member.
  case_bool_decide; [destruct (select_member lg (ord_user_id o) d)|];
    by injection E as <- _.
Qed.

Lemma resolve_pay_loop c lg ps d z :
  (foldl (ResolveMarket.pay_position c lg) (d, z) ps).1 =
  foldl (λ d p,
           if (0 <? shares_of c p) && bool_decide (is_Some lg)
           then credit_member lg (pos_user_id p) (shares_of c p * 100) d
           else d) d ps.
Proof.
  revert d z. induction ps as [|p ps IH]; intros d z; [done|].
  cbn [foldl].
  destruct (ResolveMarket.pay_position c lg (d, z) p) as [d1 z1] eqn:E.
  rewrite IH. f_equal.
  unfold ResolveMarket.pay_position in E. unfold credit_member.
  destruct (_ && _); [destruct (select_member lg (pos_user_id p) d)|];
    by injection E as <- _.
Qed.


Lemma pay_loop_frame {T} (proj : db → T) c lg ps d :
  (∀ lg u x d, proj (credit_member lg u x d) = proj d) →
  proj (foldl (λ d p,
                 if (0 <? shares_of c p) && bool_decide (is_Some lg)
                 then credit_member lg (pos_user_id p) (shares_of c p * 100) d
                 else d) d ps) = proj d.
Proof.
  intros Hc. revert d. induction ps as [|p ps IH]; intros d; simpl; [done|].
  rewrite IH. case_match; [apply Hc|done].
Qed.
End refunds.

(** ** Settlement, cancellation and the expiry sweep *)

Section settlement.

Lemma select_open_orders_ext mk d d' :
  orders d' = orders d → select_open_orders mk d' = select_open_orders mk d.
Proof. intros E. unfold select_open_orders. by rewrite E. Qed.

Lemma select_positions_ext mk d d' :
  positions d' = positions d → select_positions mk d' = select_positions mk d.
Proof. intros E. unfold select_positions. by rewrite E. Qed.

(** [resolve], store side: the market update, the payout loop and the
    refund loop, one after the other. *)
Lemma resolve_store mk lg c d :
  (ResolveMarket.resolve mk lg c d).2 =
  foldl (CancelMarket.refund_order lg)
    (foldl (λ d p,
              if (0 <? shares_of c p) && bool_decide (is_Some lg)
              then credit_member lg (pos_user_id p) (shares_of c p * 100) d
              else d)
       (update_market mk (ResolveMarket.mark_resolved c) d)
       (select_positions mk d))
    (select_open_orders mk d).
Proof.
  unfold ResolveMarket.resolve.
  set (d1 := update_market mk (ResolveMarket.mark_resolved c) d).
  change (select_positions mk d1) with (select_positions mk d).
  destruct (foldl (ResolveMarket.pay_position c lg) (d1, 0) (select_positions mk d))
    as [d2 tp] eqn:E2.
  destruct (foldl (ResolveMarket.refund_order lg) (d2, 0) (select_open_orders mk d2))
    as [d3 tr] eqn:E3.
  simpl. change d3 with (d3, tr).1. rewrite <- E3, resolve_refund_loop.
  assert (d2 = foldl (λ d p,
              if (0 <? shares_of c p) && bool_decide (is_Some lg)
              then credit_member lg (pos_user_id p) (shares_of c p * 100) d
              else d) d1 (select_positions mk d)) as Hd2.
  { change d2 with (d2, tp).1. by rewrite <- E2, resolve_pay_loop. }
  rewrite (select_open_orders_ext mk d d2).
  - by rewrite Hd2.
  - rewrite Hd2. by rewrite (pay_loop_frame orders) by apply orders_credit_member.
Qed.

End settlement.

Section cancel_market.
Import CancelMarket.

Lemma cancel_serve_run rq d market :
  truthy (market_id rq) = true →
  truthy (admin_user_id rq) = true →
  is_admin (admin_user_id rq) d = true →
  select_market (market_id rq) d = Some market →
  mkt_status market ≠ RESOLVED →
  mkt_status market ≠ CANCELLED →
  serve rq d =
  (Success (length (select_open_orders (market_id rq) d)),
   update_market (market_id rq) mark_cancelled
     (foldl (refund_order (mkt_league_id market)) d
        (select_open_orders (market_id rq) d))).
Proof.
  intros Hmk Ha Hadm Hm H1 H2. unfold serve.
  rewrite Hmk, Ha, Hadm, Hm. simpl.
  by rewrite !bool_decide_eq_false_2 by done.
Qed.


Lemma cancel_serve_error rq d st msg d' :
  serve rq d = (Error st msg, d') → d' = d.
Proof.
  unfold serve. repeat case_match; (by intros [= _ _ <-]) || (by intros [=]).
Qed.

Lemma cancel_market_refunds_aux rq d market :
  truthy (market_id rq) = true →
  truthy (admin_user_id rq) = true →
  is_admin (admin_user_id rq) d = true →
  select_market (market_id rq) d = Some market →
  mkt_status market ≠ RESOLVED →
  mkt_status market ≠ CANCELLED →
  select_market (market_id rq) (serve rq d).2 = Some (mark_cancelled market) ∧
  is_admin (admin_user_id rq) (serve rq d).2 = true.
Proof.
  intros Hmk Ha Hadm Hm H1 H2.
  rewrite (cancel_serve_run rq d market) by done. simpl.
  split.
  - apply select_market_update; [done|].
    rewrite <- Hm. apply select_market_ext.
    by rewrite (refund_orders_frame markets)
      by first [apply markets_credit_member | done].
  - unfold is_admin in *. cbn [admins update_market set_markets].
    rewrite (refund_orders_frame admins); [done| |done].
    intros lg u x d0. unfold credit_member, update_member.
    destruct (select_member lg u d0); [by destruct lg|done].
Qed.


(** X3. Cancellation happens once: after a cancellation that went
    through, the same request is refused as already resolved or
    cancelled, and the refusal writes nothing, so no order is refunded a
    second time. *)
Theorem cancel_market_once rq d market :
  truthy (market_id rq) = true →
  truthy (admin_user_id rq) = true →
  is_admin (admin_user_id rq) d = true →
  select_market (market_id rq) d = Some market →
  mkt_status market ≠ RESOLVED →
  mkt_status market ≠ CANCELLED →
  serve rq (serve rq d).2 =
  (Error 400 "Market is already resolved or cancelled", (serve rq d).2).
Proof.
  intros Hmk Ha Hadm Hm H1 H2.
  destruct (cancel_market_refunds_aux rq d market) as [Hsel Hadm'];
    [done..|].
  unfold serve at 1. rewrite Hmk, Ha, Hadm', Hsel. done.
Qed.

Lemma cancel_market_once_witness :
  serve MoreExamples.cancel_m1
    (serve MoreExamples.cancel_m1 Examples.contested_vote).2 =
  (Error 400 "Market is already resolved or cancelled",
   (serve MoreExamples.cancel_m1 Examples.contested_vote).2).
Proof.
  apply (cancel_market_once MoreExamples.cancel_m1 Examples.contested_vote
           (Market "m1" VOTING None (Some "L") (Some 5) (Some "alice")
              (Some "proof.png")));
    [reflexivity | reflexivity | vm_compute; reflexivity | vm_compute; reflexivity
    | discriminate | discriminate].
Defined.
End cancel_market.

Section expiry_sweep.
Import CheckMarketExpiry.

Lemma settle_is_resolve d m :
  settle d m = (ResolveMarket.resolve (mkt_id m) (mkt_league_id m) NO d).2.
Proof.
  rewrite resolve_store. unfold settle.
  set (d1 := update_market (mkt_id m) (ResolveMarket.mark_resolved NO) d).
  change (select_positions (mkt_id m) d1) with (select_positions (mkt_id m) d).
  rewrite (select_open_orders_ext (mkt_id m) d).
  - reflexivity.
  - change (pay_position (mkt_league_id m))
      with (λ d p, if (0 <? shares_of NO p)
                      && bool_decide (is_Some (mkt_league_id m))
                   then credit_member (mkt_league_id m) (pos_user_id p)
                          (shares_of NO p * 100) d
                   else d).
    by rewrite (pay_loop_frame orders) by apply orders_credit_member.
Qed.

Lemma serve_store specific dl d :
  (serve specific dl d).2 = foldl settle d (expiredMarkets specific dl d).
Proof. unfold serve. by destruct (expiredMarkets specific dl d). Qed.

(** X4. The expiry sweep settles each market it finds, one after the
    other, exactly as a resolution with outcome NO does: its own payout
    and refund loops leave the store that [resolve] leaves.  The markets
    it finds are the OPEN ones whose deadline lies more than the timeout
    (60 minutes unless the settings say otherwise) before now, narrowed to
    the market the request names, if it names one. *)
Theorem expiry_sweep_is_resolve_no specific dl d :
  (serve specific dl d).2 =
    foldl (λ d m, (ResolveMarket.resolve (mkt_id m) (mkt_league_id m) NO d).2)
      d (expiredMarkets specific dl d) ∧
  (∀ m, m ∈ expiredMarkets specific dl d ↔
     m ∈ markets d ∧ mkt_status m = OPEN ∧
     (∃ t, closes_at dl !! mkt_id m = Some t ∧
           t < now d - default 60 (no_resolve_timeout_minutes dl) * 60 * 1000) ∧
     (truthy specific = true → mkt_id m = specific)) ∧
  ((serve specific dl d).1 = NoExpired ↔ expiredMarkets specific dl d = []).
Proof.
  split_and!.
  - rewrite serve_store. generalize (expiredMarkets specific dl d). intros ms.
    revert d. induction ms as [|m ms IH]; intros d; simpl; [done|].
    by rewrite IH, settle_is_resolve.
  - intros m. unfold expiredMarkets. rewrite list_elem_of_filter.
    unfold expired, cutoffTime. tauto.
  - unfold serve. by destruct (expiredMarkets specific dl d).
Qed.

Lemma markets_settle d m :
  markets (settle d m) = swept [m] <$> markets d.
Proof.
  unfold settle.
  rewrite (refund_orders_frame markets)
    by first [apply markets_credit_member | done].
  assert (∀ ps d0, markets (foldl (pay_position (mkt_league_id m)) d0 ps) = markets d0)
    as ->.
  { induction ps as [|p ps IH]; intros d0; simpl; [done|]. rewrite IH.
    unfold pay_position. case_match; [apply markets_credit_member|done]. }
  simpl. apply list_fmap_ext. intros _ x _. unfold swept.
  repeat case_decide; set_solver.
Qed.

Lemma now_settle d m : now (settle d m) = now d.
Proof.
  unfold settle.
  rewrite (refund_orders_frame now).
  - assert (∀ ps d0, now (foldl (pay_position (mkt_league_id m)) d0 ps) = now d0)
      as ->; [|done].
    induction ps as [|p ps IH]; intros d0; simpl; [done|]. rewrite IH.
    unfold pay_position, credit_member, update_member.
    repeat case_match; done.
  - intros lg u x d0. unfold credit_member, update_member.
    repeat case_match; done.
  - done.
Qed.

Lemma markets_settle_all ms d :
  markets (foldl settle d ms) = swept ms <$> markets d ∧
  now (foldl settle d ms) = now d.
Proof.
  revert d. induction ms as [|m ms IH]; intros d; simpl.
  { split; [|done]. symmetry. etransitivity; [|apply list_fmap_id].
    apply list_fmap_ext. intros _ x _. unfold swept.
    rewrite decide_False by (rewrite fmap_nil; apply not_elem_of_nil). done. }
  destruct (IH (settle d m)) as [-> ->]. rewrite now_settle. split; [|done].
  rewrite markets_settle, <- list_fmap_compose.
  apply list_fmap_ext. intros _ x _. simpl. unfold swept. simpl.
  destruct (decide (mkt_id x = mkt_id m)) as [E|E].
  - rewrite (decide_True (P := mkt_id x ∈ [mkt_id m])) by set_solver.
    rewrite (decide_True (P := mkt_id x ∈ mkt_id m :: _)) by set_solver.
    simpl. by case_decide.
  - rewrite (decide_False (P := mkt_id x ∈ [mkt_id m])) by set_solver.
    repeat case_decide; set_solver.
Qed.

(** X5. The sweep settles a market once.  Whatever the first run did, a
    second run at the same time finds no expired market and leaves the
    store as it is: every market the first run settled is RESOLVED, and
    the sweep only looks at OPEN ones. *)
Theorem expiry_sweep_once specific dl d :
  serve specific dl (serve specific dl d).2 = (NoExpired, (serve specific dl d).2).
Proof.
  assert (expiredMarkets specific dl (serve specific dl d).2 = []) as E.
  { rewrite serve_store.
    destruct (markets_settle_all (expiredMarkets specific dl d) d) as [Hm Hn].
    unfold expiredMarkets at 1. unfold cutoffTime. rewrite Hm, Hn.
    apply filter_none. intros y (x & -> & Hx)%list_elem_of_fmap Hy.
    unfold swept in Hy. case_decide as Hid.
    - by destruct Hy as [? _].
    - apply Hid, list_elem_of_fmap. exists x. split; [done|].
      unfold expiredMarkets. by apply list_elem_of_filter. }
  unfold serve at 1. by rewrite E.
Qed.
End expiry_sweep.

(** ** admin-actions *)

Section admin_actions.
Import AdminActions.

Lemma update_member_back lg u v w d :
  select_member lg u d = Some v →
  update_member lg u v (update_member lg u w d) = d.
Proof.
  destruct lg as [l|]; [|done]. simpl. intros Hv.
  destruct d as [ms os ts ps vs lm ad st ni nw]. unfold update_member, set_league_members.
  simpl in *. f_equal. apply map_eq. intros k.
  destruct (decide ((l, u) = k)) as [<-|Hk].
  - rewrite !lookup_alter_eq, Hv. done.
  - by rewrite !lookup_alter_ne by done.
Qed.

Lemma admin_serve_error rq d st msg d' :
  serve rq d = (Error st msg, d') → d' = d.
Proof.
  unfold serve. repeat case_match; (by intros [= _ _ <-]) || (by intros [=]).
Qed.

(** X6. Only an admin acts: for a caller without the admin role every
    action, whatever its payload, is refused and writes nothing. *)
Theorem admin_actions_gate rq d :
  is_admin (admin_user_id rq) d = false →
  ∃ st msg, serve rq d = (Error st msg, d).
Proof.
  intros Hadm. unfold serve. rewrite Hadm. simpl.
  destruct (_ || _); eauto.
Qed.

Lemma admin_actions_gate_witness :
  is_admin "bob" Examples.direct_sale = false ∧
  ∃ st msg,
    serve (Request "bob" (give_tokens "bob" (Some 1000000) "L")) Examples.direct_sale
    = (Error st msg, Examples.direct_sale).
Proof.
  assert (is_admin "bob" Examples.direct_sale = false) as H
    by (vm_compute; reflexivity).
  split; [exact H|].
  apply (admin_actions_gate (Request "bob" (give_tokens "bob" (Some 1000000) "L"))
           Examples.direct_sale H).
Defined.




End admin_actions.

Section admin_market_actions.
Import AdminActions.

Lemma filter_filter_out {A} (P : A → Prop) `{∀ x, Decision (P x)} (l : list A) :
  filter P (filter (λ x, ¬ P x) l) = [].
Proof.
  apply filter_none. intros x [? _]%list_elem_of_filter. done.
Qed.

Lemma filter_filter_keep {A} (P Q : A → Prop)
    `{∀ x, Decision (P x)} `{∀ x, Decision (Q x)} (l : list A) :
  (∀ x, P x → Q x) → filter P (filter Q l) = filter P l.
Proof.
  intros HPQ. rewrite list_filter_filter. apply list_filter_iff. naive_solver.
Qed.

Lemma select_market_clear mk mk' d :
  select_market mk' (clear_market mk d) = select_market mk' d.
Proof. done. Qed.

(** X9. [reset_market] leaves nothing of the market but its row: no
    vote, order, trade or position of the market remains, and the row is
    OPEN again with outcome and report cleared.  Rows of other markets
    are kept, and no balance moves: neither the cost escrowed in the
    orders deleted nor the stakes of the votes deleted are returned. *)
Theorem reset_market_clears admin mk d market :
  truthy admin = true → is_admin admin d = true → truthy mk = true →
  select_market mk d = Some market →
  let d' := (serve (Request admin (reset_market mk)) d).2 in
  (serve (Request admin (reset_market mk)) d).1 = MarketReset ∧
  select_market mk d' =
    Some (Market mk OPEN None (mkt_league_id market) None None None) ∧
  select_votes mk d' = [] ∧
  select_positions mk d' = [] ∧
  filter (λ o, ord_market_id o = mk) (orders d') = [] ∧
  filter (λ t, trd_market_id t = mk) (trades d') = [] ∧
  (∀ mk', mk' ≠ mk →
     select_votes mk' d' = select_votes mk' d ∧
     select_positions mk' d' = select_positions mk' d ∧
     filter (λ o, ord_market_id o = mk') (orders d')
       = filter (λ o, ord_market_id o = mk') (orders d) ∧
     filter (λ t, trd_market_id t = mk') (trades d')
       = filter (λ t, trd_market_id t = mk') (trades d)) ∧
  league_members d' = league_members d.
Proof.
  intros Ha Hadm Hmk Hm. cbv zeta.
  assert (serve (Request admin (reset_market mk)) d =
          (MarketReset, update_market mk reset (clear_market mk d))) as ->.
  { unfold serve. cbn [admin_user_id act]. by rewrite Ha, Hadm, Hmk. }
  cbn [fst snd]. split_and!.
  - done.
  - rewrite (select_market_update mk reset (clear_market mk d) market); [|done|done].
    unfold reset. f_equal. f_equal.
    unfold select_market in Hm.
    destruct (filter _ (markets d)) as [|x [|??]] eqn:E; simplify_eq/=.
    assert (market ∈ filter (λ m, mkt_id m = mk) (markets d)) as Hin
      by (rewrite E; left).
    by apply list_elem_of_filter in Hin as [? _].
  - apply select_votes_delete.
  - apply (filter_filter_out (λ p, pos_market_id p = mk)).
  - apply (filter_filter_out (λ o, ord_market_id o = mk)).
  - apply (filter_filter_out (λ t, trd_market_id t = mk)).
  - intros mk' Hne. split_and!.
    + by apply select_votes_delete_ne.
    + apply filter_filter_keep. naive_solver.
    + apply filter_filter_keep. naive_solver.
    + apply filter_filter_keep. naive_solver.
  - done.
Qed.

Lemma reset_market_clears_witness :
  (mkt_status <$> select_market "m1"
     (serve (Request "root" (reset_market "m1")) Examples.after_force_yes).2)
  = Some OPEN ∧
  select_positions "m1"
    (serve (Request "root" (reset_market "m1")) Examples.after_force_yes).2 = [] ∧
  league_members (serve (Request "root" (reset_market "m1")) Examples.after_force_yes).2
  = league_members Examples.after_force_yes.
Proof.
  destruct (reset_market_clears "root" "m1" Examples.after_force_yes
              (Market "m1" RESOLVED (Some YES) (Some "L") (Some 5) (Some "alice")
                 (Some "proof.png")))
    as (_ & Hsel & _ & Hpos & _ & _ & _ & Hbal);
    [reflexivity | vm_compute; reflexivity | reflexivity | vm_compute; reflexivity |].
  split_and!; [|exact Hpos|exact Hbal].
  exact (f_equal (fmap mkt_status) Hsel).
Defined.

(** X10. [delete_market] removes the market and everything that refers
    to it: afterwards the market cannot be found, no vote, order, trade or
    position of it remains, rows of other markets are kept, and no balance
    has moved. *)
Theorem delete_market_removes admin mk d :
  truthy admin = true → is_admin admin d = true → truthy mk = true →
  let d' := (serve (Request admin (delete_market mk)) d).2 in
  (serve (Request admin (delete_market mk)) d).1 = MarketDeleted ∧
  select_market mk d' = None ∧
  select_votes mk d' = [] ∧
  select_positions mk d' = [] ∧
  filter (λ o, ord_market_id o = mk) (orders d') = [] ∧
  filter (λ t, trd_market_id t = mk) (trades d') = [] ∧
  (∀ mk', mk' ≠ mk →
     select_market mk' d' = select_market mk' d ∧
     select_votes mk' d' = select_votes mk' d ∧
     select_positions mk' d' = select_positions mk' d ∧
     filter (λ o, ord_market_id o = mk') (orders d')
       = filter (λ o, ord_market_id o = mk') (orders d) ∧
     filter (λ t, trd_market_id t = mk') (trades d')
       = filter (λ t, trd_market_id t = mk') (trades d)) ∧
  league_members d' = league_members d.
Proof.
  intros Ha Hadm Hmk. cbv zeta.
  assert (serve (Request admin (delete_market mk)) d =
          (MarketDeleted, StoreMore.delete_market mk (clear_market mk d))) as ->.
  { unfold serve. cbn [admin_user_id act]. by rewrite Ha, Hadm, Hmk. }
  cbn [fst snd]. split_and!.
  - done.
  - unfold select_market. simpl.
    by rewrite (filter_filter_out (λ m, mkt_id m = mk)).
  - apply select_votes_delete.
  - apply (filter_filter_out (λ p, pos_market_id p = mk)).
  - apply (filter_filter_out (λ o, ord_market_id o = mk)).
  - apply (filter_filter_out (λ t, trd_market_id t = mk)).
  - intros mk' Hne. split_and!.
    + unfold select_market. simpl. f_equal.
      apply filter_filter_keep. naive_solver.
    + unfold select_votes. simpl. rewrite !filter_filter_keep by naive_solver.
      done.
    + unfold select_positions. simpl.
      rewrite !filter_filter_keep by naive_solver. done.
    + simpl. rewrite !filter_filter_keep by naive_solver. done.
    + simpl. rewrite !filter_filter_keep by naive_solver. done.
  - done.
Qed.

Lemma delete_market_removes_witness :
  select_market "m1"
    (serve (Request "root" (delete_market "m1")) Examples.contested_vote).2 = None ∧
  (mkt_status <$> select_market "m2"
     (serve (Request "root" (delete_market "m1")) Examples.contested_vote).2)
  = Some OPEN.
Proof.
  destruct (delete_market_removes "root" "m1" Examples.contested_vote)
    as (_ & Hsel & _ & _ & _ & _ & Hother & _);
    [reflexivity | vm_compute; reflexivity | reflexivity |].
  split; [exact Hsel|].
  destruct (Hother "m2") as (-> & _); [discriminate|].
  vm_compute. reflexivity.
Defined.
End admin_market_actions.

(** ** sell-position: fills and proceeds *)

Section sell_fills.
Import SellPosition.






Lemma sell_serve_inv rq d matched remaining n d' :
  serve rq d = (Success matched remaining n, d') →
  ∃ market pos,
    select_market (market_id rq) d = Some market ∧
    mkt_status market = OPEN ∧
    1 ≤ price rq ≤ 99 ∧ quantity rq ≠ 0 ∧
    select_position (market_id rq) (user_id rq) d = Some pos ∧
    quantity rq ≤ shares_of (side_to_sell rq) pos ∧
    escrow_and_match rq (PlaceOrder.effective_league (league_id rq) market) pos d
    = (Success matched remaining n, d').
Proof.
  unfold serve.
  destruct (negb (truthy (market_id rq)) || _ || (price rq =? 0) || (quantity rq =? 0))
    eqn:Hmiss; [done|].
  destruct ((price rq <? 1) || (99 <? price rq)) eqn:Hprice; [done|].
  destruct (select_market _ _) as [market|]; [|done].
  case_bool_decide as Hopen; simpl; [|done].
  destruct (select_position _ _ _) as [pos|]; [|done].
  destruct (Z.ltb_spec (shares_of (side_to_sell rq) pos) (quantity rq)); [done|].
  intros Hrun. exists market, pos.
  apply orb_false_iff in Hprice as [?%Z.ltb_ge ?%Z.ltb_ge].
  apply orb_false_iff in Hmiss as [_ Hq%Z.eqb_neq].
  split_and!; try done; lia.
Qed.








End sell_fills.

(** ** place-order: refusals and balances *)

Section place_order_more.
Import PlaceOrder.

Lemma plan_fills_positive rq d :
  0 ≤ quantity rq → Forall (λ m, 0 < fillQuantity m) (plan rq d).1.
Proof.
  intros Hq. apply Forall_lookup. intros i m Hm.
  by destruct (plan_lookup rq d i m Hq Hm) as (_ & _ & _ & ?).
Qed.

Lemma execute_matches_credit rq lg ms d lg' u :
  1 ≤ price rq ≤ 99 →
  Forall (λ m, 0 < fillQuantity m) ms →
  ∃ x, 0 ≤ x ∧
    select_member lg' u (foldl (execute_match rq lg) d ms) =
    credited x (select_member lg' u d).
Proof.
  intros Hp Hms. revert d. induction Hms as [|m ms Hm _ IH]; intros d; simpl.
  { exists 0. by rewrite credited_0. }
  destruct (IH (execute_match rq lg d m)) as (x & Hx & ->).
  assert (∃ y, 0 ≤ y ∧ select_member lg' u (execute_match rq lg d m)
                        = credited y (select_member lg' u d)) as (y & Hy & ->).
  { unfold execute_match.
    rewrite (select_member_ext _ _ _ _ (members_update_matched_order _ _)).
    destruct (isContractTransfer m).
    - rewrite (select_member_ext _ _ _ _ (members_give_shares _ _ _ _ _)).
      rewrite select_member_credit.
      rewrite (select_member_ext _ _ _ _ (members_insert_trade _ _ _ _ _ _)).
      case_decide.
      + eexists. split; [|done]. unfold costPerShare. destruct (side rq); nia.
      + exists 0. by rewrite credited_0.
    - rewrite !(select_member_ext _ _ _ _ (members_give_shares _ _ _ _ _)).
      rewrite (select_member_ext _ _ _ _ (members_insert_trade _ _ _ _ _ _)).
      exists 0. by rewrite credited_0. }
  exists (y + x). split; [lia|]. apply credited_credited.
Qed.

(** X13. Placing a buy order never makes a balance negative.  A refused
    order writes nothing; an accepted one debits the buyer, unless an
    admin, by a cost the balance covers, and credits the owners of the
    sell orders it fills.  So every membership balance that was
    non-negative before the request is non-negative after it. *)
Theorem buy_keeps_balances_nonnegative rq d lg u bal :
  select_member lg u d = Some bal → 0 ≤ bal →
  ∃ bal', select_member lg u (serve rq d).2 = Some bal' ∧ 0 ≤ bal'.
Proof.
  intros Hbal Hnn.
  destruct (serve rq d) as [resp d'] eqn:Hrun. simpl.
  apply serve_inv in Hrun
    as [(? & ? & _ & ->)|(_ & Hp & Hq & market & _ & _ & Hrun)]; [eauto|].
  simpl in Hrun.
  set (lg0 := effective_league (league_id rq) market) in *.
  assert (∃ d1 b1, matching rq lg0 d1 = (resp, d') ∧ orders d1 = orders d ∧
            select_member lg u d1 = Some b1 ∧ 0 ≤ b1)
    as (d1 & b1 & Hmatch & Hord & Hb1 & Hnn1).
  { destruct Hrun as [[_ Hrun]|(_ & bal0 & Hbal0 & Hcost & Hrun)].
    - exists d, bal. split_and!; done.
    - set (cost := costPerShare (side rq) (price rq) * quantity rq) in *.
      destruct (decide (lg = lg0 ∧ u = user_id rq)) as [Hk|Hk].
      + exists (update_member lg0 (user_id rq) (bal0 - cost) d), (bal0 - cost).
        split_and!; [done | apply orders_update_member | | lia].
        rewrite select_member_update, decide_True by done.
        destruct Hk as [-> ->]. by rewrite Hbal0.
      + exists (update_member lg0 (user_id rq) (bal0 - cost) d), bal.
        split_and!; [done | apply orders_update_member | | lia].
        by rewrite select_member_update, decide_False. }
  replace d' with (matching rq lg0 d1).2 by (by rewrite Hmatch).
  unfold matching. rewrite (plan_ext rq d d1) by done.
  pose proof (plan_fills_positive rq d ltac:(lia)) as Hfills.
  destruct (plan rq d) as [ms r]. simpl in *.
  destruct (execute_matches_credit rq lg0 ms d1 lg u Hp Hfills) as (x & Hx & E).
  assert (select_member lg u
            (if 0 <? r
             then insert_order (market_id rq) (user_id rq) (side rq) (price rq)
                    (quantity rq) r false (foldl (execute_match rq lg0) d1 ms)
             else foldl (execute_match rq lg0) d1 ms)
          = select_member lg u (foldl (execute_match rq lg0) d1 ms)) as ->.
  { case_match; [|done]. apply select_member_ext, members_insert_order. }
  rewrite E, Hb1. simpl. eexists. split; [done|lia].
Qed.

Lemma buy_keeps_balances_nonnegative_witness :
  select_member (Some "L") "alice" Examples.direct_sale = Some 0 ∧
  ∃ bal', select_member (Some "L") "alice"
            (serve Examples.bob_buys Examples.direct_sale).2 = Some bal' ∧ 0 ≤ bal'.
Proof.
  assert (select_member (Some "L") "alice" Examples.direct_sale = Some 0) as Hbal
    by (vm_compute; reflexivity).
  split; [exact Hbal|].
  apply (buy_keeps_balances_nonnegative Examples.bob_buys Examples.direct_sale
           (Some "L") "alice" 0 Hbal). lia.
Defined.

(** X14. No trading outside OPEN: on a market that is in VOTING, RESOLVED
    or CANCELLED a buy and a sell are both refused, whoever asks, and the
    store stays as it is. *)
Theorem closed_market_refuses_trading mk d m (rq : request)
    (rq' : SellPosition.request) :
  select_market mk d = Some m → mkt_status m ≠ OPEN →
  market_id rq = mk → SellPosition.market_id rq' = mk →
  (∃ st msg, serve rq d = (Error st msg, d)) ∧
  (∃ st msg, SellPosition.serve rq' d = (SellPosition.Error st msg, d)).
Proof.
  intros Hm Hst <- Hmk'. split.
  - unfold serve. rewrite Hm.
    rewrite (bool_decide_eq_false_2 (mkt_status m = OPEN)) by done. simpl.
    repeat case_match; eauto.
  - unfold SellPosition.serve. rewrite Hmk', Hm.
    rewrite (bool_decide_eq_false_2 (mkt_status m = OPEN)) by done. simpl.
    repeat case_match; eauto.
Qed.

Lemma closed_market_refuses_trading_witness :
  (∃ st msg, serve (Request "m1" "bob" YES 55 1 "L") Examples.contested_vote
             = (Error st msg, Examples.contested_vote)) ∧
  (∃ st msg, SellPosition.serve (SellPosition.Request "m1" "alice" YES 55 1 "L")
               Examples.contested_vote
             = (SellPosition.Error st msg, Examples.contested_vote)).
Proof.
  apply (closed_market_refuses_trading "m1" Examples.contested_vote
           (Market "m1" VOTING None (Some "L") (Some 5) (Some "alice")
              (Some "proof.png")));
    [vm_compute; reflexivity | discriminate | reflexivity | reflexivity].
Defined.
End place_order_more.

(** ** The weighted tally *)

Section tally.
Import ResolveMarket.
Local Open Scope Q_scope.

Lemma tally_fold_no_yes w adm vs y n :
  (∀ v, v ∈ vs → vt_vote v = NO) →
  (foldl (tally_step w adm) (y, n) vs).1 = y.
Proof.
  revert y n. induction vs as [|v vs IH]; intros y n Hno; [done|].
  cbn [foldl]. unfold tally_step at 2.
  rewrite (Hno v) by left.
  case_bool_decide; apply IH; intros; apply Hno; by right.
Qed.

Lemma tally_fold_no_no w adm vs y n :
  (∀ v, v ∈ vs → vt_vote v = YES) →
  (foldl (tally_step w adm) (y, n) vs).2 = n.
Proof.
  revert y n. induction vs as [|v vs IH]; intros y n Hyes; [done|].
  cbn [foldl]. unfold tally_step at 2.
  rewrite (Hyes v) by left.
  case_bool_decide; apply IH; intros; apply Hyes; by right.
Qed.

Lemma tally_fold_mono w adm vs y n :
  0 <= admin_weight w →
  y <= (foldl (tally_step w adm) (y, n) vs).1 ∧
  n <= (foldl (tally_step w adm) (y, n) vs).2.
Proof.
  intros Haw. revert y n. induction vs as [|v vs IH]; intros y n.
  { simpl. split; lra. }
  cbn [foldl]. unfold tally_step at 2 4.
  case_bool_decide; [destruct (vt_vote v)|];
    match goal with |- context [foldl _ (?a, ?b) vs] =>
      destruct (IH a b) as [? ?] end; split; lra.
Qed.

(** An admin vote for YES among the votes adds at least one admin weight
    to the YES side. *)
Lemma tally_fold_admin_yes w adm vs y n v :
  0 <= admin_weight w →
  v ∈ vs → vt_user_id v ∈ adm → vt_vote v = YES →
  y + admin_weight w <= (foldl (tally_step w adm) (y, n) vs).1.
Proof.
  intros Haw Hin Hadm Hyes. revert y n.
  induction vs as [|x vs IH]; intros y n; [by apply elem_of_nil in Hin|].
  cbn [foldl]. apply elem_of_cons in Hin as [<-|Hin].
  - unfold tally_step at 2. rewrite bool_decide_eq_true_2, Hyes by done.
    apply tally_fold_mono. done.
  - destruct (tally_step w adm (y, n) x) as [a b] eqn:E.
    assert (y <= a) as Hya.
    { unfold tally_step in E.
      case_bool_decide; [destruct (vt_vote x)|]; injection E as <- <-; lra. }
    eapply Qle_trans; [|apply (IH Hin)]. lra.
Qed.

Lemma weighted_totals_unfold w adm vs :
  weighted_totals w adm vs =
  foldl (tally_step w adm)
    (let nonAdminYes :=
       filter (λ v, vt_user_id v ∉ adm) (filter (λ v, vt_vote v = YES) vs) in
     let nonAdminNo :=
       filter (λ v, vt_user_id v ∉ adm) (filter (λ v, vt_vote v = NO) vs) in
     let total := count_Q nonAdminYes + count_Q nonAdminNo in
     if Qlt_bool 0 total
     then (0 + yes_bloc_weight w * (count_Q nonAdminYes / total),
           0 + no_bloc_weight w * (count_Q nonAdminNo / total))
     else (0, 0))
    vs.
Proof.
  unfold weighted_totals. cbv zeta. destruct (Qlt_bool _ _); reflexivity.
Qed.

Lemma count_Q_nonneg {A} (l : list A) : 0 <= count_Q l.
Proof.
  unfold count_Q. change 0 with (inject_Z 0). rewrite <- Zle_Qle. lia.
Qed.

Lemma count_Q_pos {A} (l : list A) x : x ∈ l → 0 < count_Q l.
Proof.
  intros Hx. unfold count_Q. change 0 with (inject_Z 0). rewrite <- Zlt_Qlt.
  destruct l; [by apply elem_of_nil in Hx|]. simpl. lia.
Qed.

Lemma Qlt_bool_true x y : Qlt_bool x y = true ↔ x < y.
Proof.
  unfold Qlt_bool. rewrite negb_true_iff.
  destruct (Qle_bool y x) eqn:E.
  - apply Qle_bool_iff in E. split; [done|]. intros ?. lra.
  - split; [|done]. intros _. apply Qnot_le_lt. intros ?%Qle_bool_iff. congruence.
Qed.

(** X15. Without a vote for YES the tally comes out at 0 percent, and
    with it the resolution is rejected, whatever the weights.  Without a
    vote for NO, and with positive bloc and admin weights, it comes out at
    100 percent.  With weights that are not negative it always lies
    between 0 and 100. *)
Theorem yesPercentage_range w adm vs :
  ((∀ v, v ∈ vs → vt_vote v = NO) → yesPercentage w adm vs == 0) ∧
  (vs ≠ [] → (∀ v, v ∈ vs → vt_vote v = YES) →
   0 < yes_bloc_weight w → 0 < admin_weight w →
   yesPercentage w adm vs == 100) ∧
  (0 <= yes_bloc_weight w → 0 <= no_bloc_weight w → 0 <= admin_weight w →
   0 <= yesPercentage w adm vs ∧ yesPercentage w adm vs <= 100).
Proof.
  unfold yesPercentage. rewrite weighted_totals_unfold. cbv zeta.
  set (nay := filter (λ v, vt_user_id v ∉ adm) (filter (λ v, vt_vote v = YES) vs)).
  set (nan := filter (λ v, vt_user_id v ∉ adm) (filter (λ v, vt_vote v = NO) vs)).
  set (tot := count_Q nay + count_Q nan).
  set (start := if Qlt_bool 0 tot then _ else _).
  destruct (foldl (tally_step w adm) start vs) as [y n] eqn:Efold.
  assert (y = (foldl (tally_step w adm) (start.1, start.2) vs).1) as Hy
    by (by rewrite <- surjective_pairing, Efold).
  assert (n = (foldl (tally_step w adm) (start.1, start.2) vs).2) as Hn
    by (by rewrite <- surjective_pairing, Efold).
  pose proof (count_Q_nonneg nay) as Hnay. pose proof (count_Q_nonneg nan) as Hnan.
  split_and!.
  - intros Hno. rewrite tally_fold_no_yes in Hy by done.
    assert (nay = []) as Hnil.
    { unfold nay. rewrite (filter_none (λ v, vt_vote v = YES) vs); [done|].
      intros v Hv. rewrite (Hno v Hv). done. }
    assert (y == 0) as Hy0.
    { rewrite Hy. unfold start. destruct (Qlt_bool 0 tot); simpl; [|reflexivity].
      rewrite Hnil. change (count_Q (@nil vote)) with 0. unfold Qdiv. ring. }
    destruct (Qlt_bool 0 (y + n)); [|reflexivity].
    rewrite Hy0. unfold Qdiv. ring.
  - intros Hne Hyes Hybw Haw. rewrite tally_fold_no_no in Hn by done.
    assert (nan = []) as Hnil.
    { unfold nan. rewrite (filter_none (λ v, vt_vote v = NO) vs); [done|].
      intros v Hv. rewrite (Hyes v Hv). done. }
    assert (n == 0) as Hn0.
    { rewrite Hn. unfold start. destruct (Qlt_bool 0 tot); simpl; [|reflexivity].
      rewrite Hnil. change (count_Q (@nil vote)) with 0. unfold Qdiv. ring. }
    assert (0 < y) as Hypos.
    { destruct vs as [|v0 vs']; [done|].
      destruct (decide (Exists (λ v, vt_user_id v ∉ adm) (v0 :: vs'))) as [Hex|Hex].
      - apply Exists_exists in Hex as (v & Hv & Hnadm).
        assert (v ∈ nay) as Hvin.
        { unfold nay. apply list_elem_of_filter. split; [done|].
          apply list_elem_of_filter. split; [by apply Hyes|done]. }
        pose proof (count_Q_pos _ _ Hvin) as Hcnt.
        assert (tot == count_Q nay) as Htot
          by (unfold tot; rewrite Hnil; change (count_Q (@nil vote)) with 0; ring).
        assert (0 < tot) as Htpos by (rewrite Htot; done).
        destruct (tally_fold_mono w adm (v0 :: vs') start.1 start.2) as [Hm _];
          [lra|]. rewrite <- Hy in Hm.
        unfold start in Hm. rewrite (proj2 (Qlt_bool_true 0 tot) Htpos) in Hm.
        simpl in Hm.
        assert (count_Q nay / tot == 1) as Hone by (rewrite Htot; field; lra).
        rewrite Hone in Hm. lra.
      - assert (vt_user_id v0 ∈ adm) as Hadm.
        { destruct (decide (vt_user_id v0 ∈ adm)); [done|].
          exfalso. apply Hex. by left. }
        pose proof (tally_fold_admin_yes w adm (v0 :: vs') start.1 start.2 v0
                      ltac:(lra) ltac:(left) Hadm (Hyes v0 ltac:(left))) as Hm.
        rewrite <- Hy in Hm.
        assert (0 <= start.1) as Hs.
        { unfold start. destruct (Qlt_bool 0 tot) eqn:Et; simpl; [|lra].
          apply Qlt_bool_true in Et.
          assert (0 <= count_Q nay / tot) by (apply Qle_shift_div_l; lra).
          nra. }
        lra. }
    rewrite (proj2 (Qlt_bool_true 0 (y + n))) by lra.
    rewrite Hn0. field. lra.
  - intros Hybw Hnbw Haw.
    destruct (tally_fold_mono w adm vs start.1 start.2 Haw) as [Hm1 Hm2].
    rewrite <- Hy in Hm1. rewrite <- Hn in Hm2.
    assert (0 <= start.1 ∧ 0 <= start.2) as [Hs1 Hs2].
    { unfold start. destruct (Qlt_bool 0 tot) eqn:Et; simpl; [|split; lra].
      apply Qlt_bool_true in Et.
      assert (0 <= count_Q nay / tot) by (apply Qle_shift_div_l; lra).
      assert (0 <= count_Q nan / tot) by (apply Qle_shift_div_l; lra).
      split; nra. }
    destruct (Qlt_bool 0 (y + n)) eqn:Et; [|split; lra].
    apply Qlt_bool_true in Et. split.
    + apply Qmult_le_0_compat; [|lra]. apply Qle_shift_div_l; lra.
    + assert (y / (y + n) <= 1) by (apply Qle_shift_div_r; lra). lra.
Qed.

Lemma yesPercentage_range_witness :
  yesPercentage (weights MoreExamples.all_no) (admins MoreExamples.all_no)
    (votes MoreExamples.all_no) == 0 ∧
  0 <= yesPercentage (weights Examples.contested_vote) (admins Examples.contested_vote)
         (votes Examples.contested_vote) <= 100.
Proof.
  split.
  - apply (proj1 (yesPercentage_range _ _ _)).
    intros v Hv. simpl in Hv.
    apply elem_of_cons in Hv as [->|Hv]; [reflexivity|].
    apply list_elem_of_singleton in Hv. subst v. reflexivity.
  - apply (proj2 (proj2 (yesPercentage_range _ _ _))); vm_compute; discriminate.
Defined.
End tally.

(** ** Unanimous tallies *)

Section unanimous.
Import ResolveMarket.



End unanimous.

(** ** Reporting and voting from the client *)

Section report_and_vote.
Import MarketDetailPage VotingModal.

Lemma filter_fmap_preserve {A} (P : A → Prop) `{∀ x, Decision (P x)}
    (g : A → A) (l : list A) :
  (∀ x, P (g x) ↔ P x) → filter P (g <$> l) = g <$> filter P l.
Proof.
  intros Hg. induction l as [|x l IH]; [done|].
  rewrite fmap_cons, !filter_cons, IH.
  destruct (decide (P (g x))) as [Hp|Hp], (decide (P x)) as [Hq|Hq];
    try done; exfalso; naive_solver.
Qed.

Lemma set_markets_id (g : market → market) d :
  (∀ m, m ∈ markets d → g m = m) → set_markets (fmap g) d = d.
Proof.
  intros Hg. destruct d as [ms os ts ps vs lm ad st ni nw].
  unfold set_markets. simpl in *. f_equal.
  induction ms as [|m ms IH]; [done|]. rewrite fmap_cons. f_equal.
  - apply Hg. left.
  - apply IH. intros x Hx. apply Hg. by right.
Qed.

Lemma report_store mk user evidence d :
  (handleReportOutcome mk user evidence d).2 =
  set_markets (fmap (λ m,
    if decide (mkt_id m = mk ∧ mkt_status m = OPEN)
    then mark_reported user evidence (now d) m else m)) d.
Proof. unfold handleReportOutcome. by destruct (filter _ _). Qed.

(** X17. Reporting is a compare-and-swap on OPEN.  On an OPEN market the
    report moves the market to VOTING and records the reporter, the time
    and the evidence; every other table is untouched.  On a market that is
    not OPEN, and so on a second report, whoever sends it, nothing is
    written and the first report stands. *)
Theorem report_outcome_once mk user evidence d m :
  select_market mk d = Some m → mkt_status m = OPEN →
  let d' := (handleReportOutcome mk user evidence d).2 in
  (handleReportOutcome mk user evidence d).1 = Moved ∧
  select_market mk d' =
    Some (Market mk VOTING (mkt_resolved_outcome m) (mkt_league_id m)
            (Some (now d)) (Some user) evidence) ∧
  (∀ mk', mk' ≠ mk → select_market mk' d' = select_market mk' d) ∧
  orders d' = orders d ∧ positions d' = positions d ∧ votes d' = votes d ∧
  league_members d' = league_members d ∧
  ∀ user2 evidence2,
    handleReportOutcome mk user2 evidence2 d' = (AlreadyMoved, d').
Proof.
  intros Hm Hst. cbv zeta. rewrite report_store. unfold select_market in Hm.
  destruct (filter (λ m, mkt_id m = mk) (markets d)) as [|x [|??]] eqn:E;
    simplify_eq/=.
  assert (m ∈ filter (λ m, mkt_id m = mk) (markets d)) as Hin by (rewrite E; left).
  apply list_elem_of_filter in Hin as [Hid Hin].
  set (g := λ x, if decide (mkt_id x = mk ∧ mkt_status x = OPEN)
                 then mark_reported user evidence (now d) x else x).
  assert (∀ x, mkt_id (g x) = mkt_id x) as Hgid.
  { intros x. unfold g. by case_decide. }
  assert (∀ mk', filter (λ m, mkt_id m = mk') (g <$> markets d)
                 = g <$> filter (λ m, mkt_id m = mk') (markets d)) as Hfilter.
  { intros mk'. apply filter_fmap_preserve. intros x. by rewrite Hgid. }
  assert (filter (λ m, mkt_id m = mk ∧ mkt_status m = OPEN) (g <$> markets d) = [])
    as Hnone.
  { apply filter_none. intros y (x & -> & Hx)%list_elem_of_fmap [Hy1 Hy2].
    unfold g in Hy2. case_decide as Hc; [done|].
    apply Hc. split; [|done]. by rewrite <- Hgid. }
  split_and!; try done.
  - unfold handleReportOutcome.
    assert (m ∈ filter (λ m, mkt_id m = mk ∧ mkt_status m = OPEN) (markets d)) as H
      by (by apply list_elem_of_filter).
    by destruct (filter (λ m, mkt_id m = mk ∧ mkt_status m = OPEN) (markets d));
      [apply elem_of_nil in H|].
  - unfold select_market. cbn [markets set_markets]. rewrite Hfilter, E. simpl.
    unfold g. rewrite decide_True by done. unfold mark_reported. by rewrite Hid.
  - intros mk' Hne.
    unfold select_market. cbn [markets set_markets]. rewrite Hfilter. f_equal.
    etransitivity; [|apply list_fmap_id]. apply list_fmap_ext.
    intros _ y [Hy _]%list_elem_of_lookup_2%list_elem_of_filter.
    unfold g. rewrite decide_False; [done|]. intros [? _]. congruence.
  - intros user2 evidence2. unfold handleReportOutcome.
    cbn [markets set_markets now]. rewrite Hnone. f_equal.
    apply set_markets_id.
    intros y Hy. rewrite decide_False; [done|]. intros Hp.
    assert (y ∈ filter (λ m, mkt_id m = mk ∧ mkt_status m = OPEN) (g <$> markets d))
      as H by (by apply list_elem_of_filter).
    rewrite Hnone in H. by apply elem_of_nil in H.
Qed.
Lemma report_outcome_once_witness :
  handleReportOutcome "m1" "bob" None
    (handleReportOutcome "m1" "alice" (Some "proof.png") MoreExamples.sell_book).2
  = (AlreadyMoved,
     (handleReportOutcome "m1" "alice" (Some "proof.png") MoreExamples.sell_book).2).
Proof.
  assert (select_market "m1" MoreExamples.sell_book
          = Some (Market "m1" OPEN None (Some "L") None None None)) as Hm
    by (vm_compute; reflexivity).
  assert (mkt_status (Market "m1" OPEN None (Some "L") None None None) = OPEN)
    as Hst by reflexivity.
  destruct (report_outcome_once "m1" "alice" (Some "proof.png") _ _ Hm Hst)
    as (_ & _ & _ & _ & _ & _ & _ & Hagain).
  apply Hagain.
Defined.

Lemma insert_vote_duplicate mk u c stake d :
  Exists (λ v, vt_market_id v = mk ∧ vt_user_id v = u) (votes d) →
  insert_vote mk u c stake d = (false, d).
Proof. intros H. unfold insert_vote. by rewrite bool_decide_eq_true_2. Qed.

Lemma select_member_update_member lg u v d bal :
  select_member lg u d = Some bal →
  select_member lg u (update_member lg u v d) = Some v.
Proof.
  destruct lg as [l|]; [|done]. simpl. intros H.
  by rewrite lookup_alter_eq, H.
Qed.

Lemma handleVote_not_recorded mk lg u stake c d :
  (handleVote mk lg u stake c d).1 ≠ Voted →
  (handleVote mk lg u stake c d).2 = d.
Proof.
  unfold handleVote.
  destruct (0 <? stake) eqn:Hs.
  - destruct (select_member (Some lg) u d) as [bal|] eqn:Hbal; [|done].
    destruct (bal <? stake) eqn:Hlt; [done|].
    destruct (insert_vote mk u c stake _) as [[|] d1] eqn:Hins.
    + intros H. exfalso. apply H. by destruct (_ && _).
    + intros _. cbn [snd].
      unfold insert_vote in Hins. case_bool_decide; [|done].
      assert (d1 = update_member (Some lg) u (bal - stake) d) as ->
        by congruence.
      unfold credit_member.
      rewrite (select_member_update_member _ _ _ _ _ Hbal).
      replace (bal - stake + stake) with bal by lia.
      by apply update_member_back.
  - destruct (insert_vote mk u c stake d) as [[|] d1] eqn:Hins.
    + intros H. exfalso. apply H. by destruct (_ && _).
    + intros _. cbn [snd]. unfold insert_vote in Hins.
      case_bool_decide; [|done]. by injection Hins as <-.
Qed.

(** X18. A vote that is not recorded costs nothing.  Whenever the voting
    dialog ends without the success toast, because the balance does not
    cover the stake or because the insert was refused, the store is as it
    was before: the stake taken in advance has been put back. *)
Theorem vote_not_recorded_costs_nothing mk lg u stake c d :
  (handleVote mk lg u stake c d).1 ≠ Voted →
  (handleVote mk lg u stake c d).2 = d.
Proof. apply handleVote_not_recorded. Qed.

Lemma vote_not_recorded_costs_nothing_witness :
  (handleVote "m1" "L" "carol" 50 YES MoreExamples.one_vote).2
  = MoreExamples.one_vote.
Proof.
  apply vote_not_recorded_costs_nothing. vm_compute. discriminate.
Defined.

(** X19. One vote per user and market.  A user who already has a vote on
    the market cannot vote again, with any choice and any stake: the
    dialog does not report success, the first vote stands and no balance
    changes. *)
Theorem second_vote_refused mk lg u stake c d :
  Exists (λ v, vt_market_id v = mk ∧ vt_user_id v = u) (votes d) →
  (handleVote mk lg u stake c d).1 ≠ Voted ∧
  (handleVote mk lg u stake c d).2 = d.
Proof.
  intros Hdup.
  assert ((handleVote mk lg u stake c d).1 ≠ Voted) as Hn.
  { unfold handleVote.
    destruct (0 <? stake).
    - destruct (select_member (Some lg) u d) as [bal|]; [|done].
      destruct (bal <? stake); [done|].
      rewrite insert_vote_duplicate; [done|].
      by rewrite votes_update_member.
    - by rewrite insert_vote_duplicate. }
  split; [done|]. by apply handleVote_not_recorded.
Qed.

Lemma second_vote_refused_witness :
  (handleVote "m1" "L" "alice" 20 YES MoreExamples.one_vote).2
  = MoreExamples.one_vote.
Proof.
  apply second_vote_refused.
  apply Exists_cons_hd. split; reflexivity.
Defined.

(** X20. An accepted vote escrows its stake.  When the user has no vote on
    the market yet and the balance in the current league covers a positive
    stake, the dialog reports success; right after the insert the balance
    is down by exactly the stake, the new vote is the last vote of the
    market with that stake, and the tally is called exactly when every
    stakeholder has then voted and there is at least one stakeholder. *)
Theorem vote_escrows_stake mk lg u stake c d bal :
  ¬ Exists (λ v, vt_market_id v = mk ∧ vt_user_id v = u) (votes d) →
  select_member (Some lg) u d = Some bal → 0 < stake ≤ bal →
  let d2 := set_votes (λ vs, vs ++ [Vote mk u c stake])
              (update_member (Some lg) u (bal - stake) d) in
  select_member (Some lg) u d2 = Some (bal - stake) ∧
  (∀ lg' u', (lg', u') ≠ (Some lg, u) →
     select_member lg' u' d2 = select_member lg' u' d) ∧
  select_votes mk d2 = select_votes mk d ++ [Vote mk u c stake] ∧
  (handleVote mk lg u stake c d).1 = Voted ∧
  (handleVote mk lg u stake c d).2 =
    if ResolveMarket.allVoted mk d2
       && negb (bool_decide
                  (List.filter ResolveMarket.is_stakeholder (select_positions mk d2) = []))
    then (ResolveMarket.serve (ResolveMarket.Request mk (Some YES) "") d2).2
    else d2.
Proof.
  intros Hnew Hbal [Hpos Hle]. cbv zeta.
  split_and!.
  - change (select_member (Some lg) u (update_member (Some lg) u (bal - stake) d)
            = Some (bal - stake)).
    by apply (select_member_update_member _ _ _ _ bal).
  - intros [l'|] u' Hne; [|done]. simpl.
    rewrite lookup_alter_ne; [done|]. congruence.
  - unfold select_votes. cbn [votes set_votes].
    rewrite votes_update_member, filter_app.
    rewrite (filter_cons_True (λ v, vt_market_id v = mk)) by done.
    done.
  - unfold handleVote.
    rewrite (proj2 (Z.ltb_lt 0 stake) Hpos), Hbal.
    rewrite (proj2 (Z.ltb_ge bal stake) Hle).
    unfold insert_vote. rewrite votes_update_member.
    rewrite bool_decide_eq_false_2 by done.
    by destruct (_ && _).
  - unfold handleVote.
    rewrite (proj2 (Z.ltb_lt 0 stake) Hpos), Hbal.
    rewrite (proj2 (Z.ltb_ge bal stake) Hle).
    unfold insert_vote. rewrite votes_update_member.
    rewrite bool_decide_eq_false_2 by done.
    destruct (List.filter ResolveMarket.is_stakeholder _) as [|p ps];
      by destruct (ResolveMarket.allVoted _ _).
Qed.

Lemma vote_escrows_stake_witness :
  (handleVote "m1" "L" "bob" 50 NO MoreExamples.one_vote).1 = Voted.
Proof.
  assert (¬ Exists (λ v, vt_market_id v = "m1" ∧ vt_user_id v = "bob")
            (votes MoreExamples.one_vote)) as Hnew.
  { intros H. apply Exists_cons in H as [[_ H]|H]; [discriminate H|].
    by apply Exists_nil in H. }
  assert (select_member (Some "L") "bob" MoreExamples.one_vote = Some 500) as Hbal
    by (vm_compute; reflexivity).
  assert (0 < 50 ≤ 500) as Hst by lia.
  destruct (vote_escrows_stake "m1" "L" "bob" 50 NO _ 500 Hnew Hbal Hst)
    as (_ & _ & _ & Hv & _).
  exact Hv.
Defined.

End report_and_vote.

(** ** Cancelling a resting order from the trading panel *)

Section cancel_order.
Import MarketDetailPage TradingPanel.

Lemma find_unique {A} (f : A → bool) (l : list A) x :
  x ∈ l → f x = true → (∀ y, y ∈ l → f y = true → y = x) →
  List.find f l = Some x.
Proof.
  induction l as [|a l IH]; intros Hin Hf Hu.
  - by apply elem_of_nil in Hin.
  - simpl. destruct (f a) eqn:E.
    + f_equal. apply Hu; [left|done].
    + apply IH; [|done|].
      * apply elem_of_cons in Hin as [->|Hin]; [congruence|done].
      * intros y Hy. apply Hu. by right.
Qed.

Lemma elem_of_panel_orders mk u d o :
  o ∈ panel_orders mk u d ↔
  o ∈ orders d ∧ ord_market_id o = mk ∧ ord_user_id o = u
  ∧ 0 < ord_remaining_quantity o.
Proof.
  unfold panel_orders, fetched_orders, select_open_orders.
  rewrite list_elem_of_filter, merge_sort_Permutation, list_elem_of_filter.
  naive_solver.
Qed.

Lemma set_shares_shares_of sd p : set_shares sd (shares_of sd p) p = p.
Proof. by destruct sd, p. Qed.

Lemma set_shares_twice sd v w p :
  set_shares sd v (set_shares sd w p) = set_shares sd v p.
Proof. by destruct sd. Qed.

Lemma shares_of_set_shares sd v p : shares_of sd (set_shares sd v p) = v.
Proof. by destruct sd. Qed.

Lemma pos_id_set_shares sd v p : pos_id (set_shares sd v p) = pos_id p.
Proof. by destruct sd. Qed.

(** The resting order an insert leaves is the one the panel finds under
    the id the insert took, and deleting it undoes the insert up to the
    id counter. *)
Lemma cancel_resting d0 mk u sd p q sell :
  1 ≤ p ≤ 99 → 0 < q → (∀ o, o ∈ orders d0 → ord_id o ≠ next_id d0) →
  let d1 := insert_order mk u sd p q q sell d0 in
  List.find (λ o, bool_decide (ord_id o = next_id d0)) (panel_orders mk u d1)
  = Some (Order (next_id d0) mk u sd p q q sell (now d0)) ∧
  delete_order (next_id d0) d1 = bump_next_id d0.
Proof.
  intros Hp Hq Hfresh. cbv zeta. unfold insert_order.
  rewrite bool_decide_eq_true_2 by lia. split.
  - apply find_unique.
    + apply elem_of_panel_orders. cbn [orders set_orders bump_next_id].
      split_and!; try done. apply elem_of_app. right. left.
    + by apply bool_decide_eq_true_2.
    + intros y [Hy _]%elem_of_panel_orders Hid%bool_decide_eq_true_1.
      cbn [orders set_orders bump_next_id] in Hy.
      apply elem_of_app in Hy as [Hy|Hy%list_elem_of_singleton]; [|done].
      by apply Hfresh in Hy.
  - destruct d0 as [ms os ts ps vs lm ad st ni nw].
    unfold delete_order, set_orders, bump_next_id. simpl in *. f_equal.
    rewrite filter_app, filter_all by done.
    rewrite filter_cons_False by (simpl; intros H; by apply H).
    by rewrite filter_nil, app_nil_r.
Qed.

(** X21. Selling and cancelling is a round trip.  When a sell matched
    nothing and left its whole quantity resting, and the user then cancels
    that order from the trading panel, the store is what it was before the
    sell, but for the id the order used up: the order is gone and the
    escrowed shares are back in the position.  Order ids are taken to be
    fresh and position ids unique, as the primary keys make them. *)
Theorem sell_then_cancel_restores rq d matched remaining d1 pos :
  SellPosition.serve rq d = (SellPosition.Success matched remaining 0, d1) →
  0 < remaining →
  select_position (SellPosition.market_id rq) (SellPosition.user_id rq) d = Some pos →
  (∀ p, p ∈ positions d → pos_id p = pos_id pos → p = pos) →
  (∀ o, o ∈ orders d → ord_id o ≠ next_id d) →
  let mk := SellPosition.market_id rq in
  let u := SellPosition.user_id rq in
  let sd := SellPosition.side_to_sell rq in
  remaining = SellPosition.quantity rq ∧
  panel_position mk u d1
  = Some (set_shares sd (shares_of sd pos - remaining) pos) ∧
  handleCancelOrder (panel_orders mk u d1) (panel_position mk u d1) (next_id d) d1
  = bump_next_id d.
Proof.
  intros Hrun Hrem Hpos Hkey Hfresh. cbv zeta.
  apply sell_serve_inv in Hrun
    as (market & pos' & Hm & Hopen & Hprice & Hq0 & Hpos' & Hle & Hrun).
  rewrite Hpos in Hpos'. injection Hpos' as <-.
  unfold SellPosition.escrow_and_match in Hrun.
  set (g := λ p, if decide (pos_id p = pos_id pos)
                 then set_shares (SellPosition.side_to_sell rq)
                        (shares_of (SellPosition.side_to_sell rq) pos
                         - SellPosition.quantity rq) p
                 else p) in *.
  set (d0 := update_position (pos_id pos) _ d) in Hrun.
  assert (positions d0 = g <$> positions d) as Hps by done.
  assert (orders d0 = orders d) as Hos by done.
  assert (next_id d0 = next_id d) as Hni by done.
  destruct (SellPosition.matchingBuyOrders rq d0) as [|c cs].
  2:{ simpl in Hrun. destruct (Z.eqb_spec (SellPosition.quantity rq) 0); [done|].
      destruct (SellPosition.walk cs _) as [[ts us] r]. by injection Hrun. }
  cbn [SellPosition.walk foldl length] in Hrun.
  assert (SellPosition.quantity rq = remaining) as Hq by (by injection Hrun).
  rewrite (proj2 (Z.ltb_lt 0 (SellPosition.quantity rq))) in Hrun by lia.
  assert (d1 = insert_order (SellPosition.market_id rq) (SellPosition.user_id rq)
                 (SellPosition.side_to_sell rq) (SellPosition.price rq)
                 (SellPosition.quantity rq) (SellPosition.quantity rq) true d0)
    as -> by (by injection Hrun).
  assert (filter (λ p, pos_market_id p = SellPosition.market_id rq
                       ∧ pos_user_id p = SellPosition.user_id rq) (positions d)
          = [pos]) as Hrow.
  { unfold select_position in Hpos.
    by destruct (filter _ (positions d)) as [|x [|??]]; simplify_eq/=. }
  assert (g pos = set_shares (SellPosition.side_to_sell rq)
                    (shares_of (SellPosition.side_to_sell rq) pos - remaining) pos)
    as Hgpos.
  { unfold g. rewrite decide_True by done. by rewrite Hq. }
  assert (panel_position (SellPosition.market_id rq) (SellPosition.user_id rq)
            (insert_order (SellPosition.market_id rq) (SellPosition.user_id rq)
               (SellPosition.side_to_sell rq) (SellPosition.price rq)
               (SellPosition.quantity rq) (SellPosition.quantity rq) true d0)
          = Some (g pos)) as Hpanel.
  { unfold panel_position, select_position, insert_order.
    rewrite bool_decide_eq_true_2 by lia.
    cbn [positions bump_next_id set_orders]. rewrite Hps.
    rewrite filter_fmap_preserve, Hrow; [done|].
    intros p. unfold g. case_decide; [|done]. by destruct (SellPosition.side_to_sell rq). }
  split_and!; [done|by rewrite Hpanel, <- Hgpos|].
  rewrite Hpanel.
  assert (∀ o, o ∈ orders d0 → ord_id o ≠ next_id d0) as Hfresh0
    by (by rewrite Hos, Hni).
  destruct (cancel_resting d0 (SellPosition.market_id rq) (SellPosition.user_id rq)
              (SellPosition.side_to_sell rq) (SellPosition.price rq)
              (SellPosition.quantity rq) true Hprice ltac:(lia) Hfresh0)
    as [Hfind Hdel].
  unfold handleCancelOrder. rewrite <- Hni, Hfind.
  cbn [ord_is_sell_order ord_side ord_remaining_quantity]. rewrite Hdel.
  rewrite Hgpos, shares_of_set_shares, pos_id_set_shares.
  replace (shares_of (SellPosition.side_to_sell rq) pos - remaining
           + SellPosition.quantity rq)
    with (shares_of (SellPosition.side_to_sell rq) pos) by lia.
  subst d0. destruct d as [ms os ts ps vs lm ad st ni nw].
  unfold update_position, set_positions, bump_next_id. simpl in *. f_equal.
  rewrite <- list_fmap_compose.
  etransitivity; [|apply list_fmap_id]. apply list_fmap_ext.
  intros _ p Hp%list_elem_of_lookup_2. simpl. unfold g.
  destruct (decide (pos_id p = pos_id pos)) as [Hid|Hid].
  - rewrite pos_id_set_shares, decide_True by done.
    rewrite set_shares_twice, (Hkey p Hp Hid). apply set_shares_shares_of.
  - by rewrite decide_False.
Qed.

Lemma sell_then_cancel_restores_witness :
  handleCancelOrder
    (panel_orders "m1" "alice" (SellPosition.serve Examples.alice_sells Examples.holder).2)
    (panel_position "m1" "alice" (SellPosition.serve Examples.alice_sells Examples.holder).2)
    10 (SellPosition.serve Examples.alice_sells Examples.holder).2
  = bump_next_id Examples.holder.
Proof.
  assert (SellPosition.serve Examples.alice_sells Examples.holder
          = (SellPosition.Success 0 2 0,
             (SellPosition.serve Examples.alice_sells Examples.holder).2)) as Hrun
    by (vm_compute; reflexivity).
  assert (0 < 2) as Hrem by lia.
  assert (select_position "m1" "alice" Examples.holder
          = Some (Position 1 "m1" "alice" 5 0)) as Hpos
    by (vm_compute; reflexivity).
  assert (∀ p, p ∈ positions Examples.holder →
               pos_id p = pos_id (Position 1 "m1" "alice" 5 0) →
               p = Position 1 "m1" "alice" 5 0) as Hkey.
  { intros p Hp _. simpl in Hp. by apply list_elem_of_singleton in Hp. }
  assert (∀ o, o ∈ orders Examples.holder → ord_id o ≠ next_id Examples.holder)
    as Hfresh.
  { intros o Ho. simpl in Ho. by apply elem_of_nil in Ho. }
  destruct (sell_then_cancel_restores _ _ _ _ _ _ Hrun Hrem Hpos Hkey Hfresh)
    as (_ & _ & Hback).
  exact Hback.
Defined.

Lemma place_walk_no_match t cs q ms r :
  PlaceOrder.walk t cs q = (ms, r) → q ≠ 0 → length ms = 0%nat → cs = [] ∧ r = q.
Proof.
  destruct cs as [|c cs]; simpl.
  - by intros [= <- <-].
  - destruct (Z.eqb_spec q 0); [done|].
    destruct (PlaceOrder.walk t cs _) as [ms' r']. by intros [= <- <-].
Qed.

(** X22. Cancelling a buy order gives nothing back.  When a buy of a
    non-admin matched nothing and left its whole quantity resting, and the
    user then cancels that order from the trading panel, the order is
    gone, but the store is the one right after the debit: the balance
    stays down by the full cost of the order, and nothing else differs
    from before the buy but the id the order used up. *)
Theorem buy_then_cancel_keeps_debit rq d matched remaining d1 :
  PlaceOrder.serve rq d = (PlaceOrder.Success matched remaining 0, d1) →
  is_admin (PlaceOrder.user_id rq) d = false →
  (∀ o, o ∈ orders d → ord_id o ≠ next_id d) →
  let mk := PlaceOrder.market_id rq in
  let u := PlaceOrder.user_id rq in
  let cost := PlaceOrder.costPerShare (PlaceOrder.side rq) (PlaceOrder.price rq)
              * PlaceOrder.quantity rq in
  ∃ market bal,
    select_market mk d = Some market ∧
    let lg := PlaceOrder.effective_league (PlaceOrder.league_id rq) market in
    select_member lg u d = Some bal ∧
    remaining = PlaceOrder.quantity rq ∧
    handleCancelOrder (panel_orders mk u d1) (panel_position mk u d1) (next_id d) d1
    = bump_next_id (update_member lg u (bal - cost) d).
Proof.
  intros Hrun Hadm Hfresh. cbv zeta.
  apply serve_inv in Hrun as [(st & msg & [=] & _)|Hrun].
  destruct Hrun as (_ & Hprice & Hq & market & Hm & _ & Hrun).
  cbv zeta in Hrun. destruct Hrun as [[Hadm' _]|(_ & bal & Hbal & Hcost & Hrun)];
    [congruence|].
  exists market, bal. split_and!; [done|done|..].
  all: unfold PlaceOrder.matching, PlaceOrder.plan in Hrun.
  all: set (d0 := update_member _ _ _ d) in *.
  all: destruct (PlaceOrder.walk true _ _) as [ms1 r1] eqn:W1.
  all: destruct (PlaceOrder.walk false _ _) as [ms2 r2] eqn:W2.
  all: assert (length (ms1 ++ ms2) = 0%nat) as Hlen by (by injection Hrun).
  all: rewrite length_app in Hlen.
  all: apply place_walk_no_match in W1 as [_ ->]; [|lia|lia].
  all: apply place_walk_no_match in W2 as [_ ->]; [|lia|lia].
  all: destruct ms1, ms2; try done.
  all: cbn [foldl app] in Hrun.
  all: rewrite (proj2 (Z.ltb_lt 0 (PlaceOrder.quantity rq))) in Hrun by lia.
  - by injection Hrun.
  - assert (d1 = insert_order (PlaceOrder.market_id rq) (PlaceOrder.user_id rq)
                   (PlaceOrder.side rq) (PlaceOrder.price rq)
                   (PlaceOrder.quantity rq) (PlaceOrder.quantity rq) false d0)
      as -> by (by injection Hrun).
    assert (orders d0 = orders d ∧ next_id d0 = next_id d) as [Hos Hni].
    { subst d0. by destruct (PlaceOrder.effective_league _ _). }
    assert (∀ o, o ∈ orders d0 → ord_id o ≠ next_id d0) as Hfresh0
      by (by rewrite Hos, Hni).
    destruct (cancel_resting d0 (PlaceOrder.market_id rq) (PlaceOrder.user_id rq)
                (PlaceOrder.side rq) (PlaceOrder.price rq)
                (PlaceOrder.quantity rq) false Hprice ltac:(lia) Hfresh0)
      as [Hfind Hdel].
    unfold handleCancelOrder. rewrite <- Hni, Hfind.
    cbn [ord_is_sell_order]. by rewrite Hdel.
Qed.

Lemma buy_then_cancel_keeps_debit_witness :
  handleCancelOrder
    (panel_orders "m1" "alice" (PlaceOrder.serve Examples.alice_buys Examples.holder).2)
    (panel_position "m1" "alice" (PlaceOrder.serve Examples.alice_buys Examples.holder).2)
    10 (PlaceOrder.serve Examples.alice_buys Examples.holder).2
  = bump_next_id (update_member (Some "L") "alice" 945 Examples.holder).
Proof.
  assert (PlaceOrder.serve Examples.alice_buys Examples.holder
          = (PlaceOrder.Success 0 1 0,
             (PlaceOrder.serve Examples.alice_buys Examples.holder).2)) as Hrun
    by (vm_compute; reflexivity).
  assert (is_admin (PlaceOrder.user_id Examples.alice_buys) Examples.holder = false)
    as Hadm by (vm_compute; reflexivity).
  assert (∀ o, o ∈ orders Examples.holder → ord_id o ≠ next_id Examples.holder)
    as Hfresh.
  { intros o Ho. simpl in Ho. by apply elem_of_nil in Ho. }
  destruct (buy_then_cancel_keeps_debit _ _ _ _ _ Hrun Hadm Hfresh)
    as (market & bal & Hm & Hbal & _ & Hback).
  assert (market = Market "m1" OPEN None (Some "L") None None None) as ->.
  { vm_compute in Hm. by injection Hm. }
  assert (bal = 1000) as ->.
  { vm_compute in Hbal. by injection Hbal. }
  exact Hback.
Defined.

End cancel_order.

(** ** Selling from the trading panel *)

Section panel_sell.
Import TradingPanel.





End panel_sell.

(** ** Where the shares go *)

Section share_accounting.
Implicit Types (d : db) (mk u : uuid) (s : order_side) (ps : list position).






























End share_accounting.

(** ** The voting dialog and the trading gate *)

Section pending_votes.
Import VotingModal.

Lemma firstPending_Some u voted pct d ms m p stake :
  firstPending u voted pct d ms = Some (m, p, stake) →
  m ∈ ms ∧ (mkt_id m ∉ voted) ∧ select_position (mkt_id m) u d = Some p ∧
  (0 < pos_yes_shares p ∨ 0 < pos_no_shares p) ∧ stake = stakeFor pct p.
Proof.
  induction ms as [|x ms IH]; simpl; [done|].
  assert (firstPending u voted pct d ms = Some (m, p, stake) →
          m ∈ (x :: ms) ∧ (mkt_id m ∉ voted) ∧ select_position (mkt_id m) u d = Some p ∧
          (0 < pos_yes_shares p ∨ 0 < pos_no_shares p) ∧ stake = stakeFor pct p)
    as Hrest.
  { intros H. destruct (IH H) as (? & ? & ? & ? & ?). split_and!; try done. by right. }
  case_bool_decide as Hv; [done|].
  destruct (select_position (mkt_id x) u d) as [pos|] eqn:Hpos; [|done].
  destruct ((0 <? pos_yes_shares pos) || (0 <? pos_no_shares pos)) eqn:Hsh; [|done].
  intros [= <- <- <-]. split_and!; try done; [left|].
  apply orb_true_iff in Hsh as [?%Z.ltb_lt|?%Z.ltb_lt]; [by left|by right].
Qed.

Lemma firstPending_None u voted pct d ms :
  (∀ m p, m ∈ ms → select_position (mkt_id m) u d = Some p →
     pos_yes_shares p ≤ 0 ∧ pos_no_shares p ≤ 0) →
  firstPending u voted pct d ms = None.
Proof.
  induction ms as [|x ms IH]; intros H; simpl; [done|].
  rewrite IH by (intros m p Hm; apply H; by right).
  case_bool_decide; [done|].
  destruct (select_position (mkt_id x) u d) as [pos|] eqn:Hpos; [|done].
  destruct (H x pos) as [Hy Hn]; [left|done|].
  by rewrite (proj2 (Z.ltb_ge 0 _) Hy), (proj2 (Z.ltb_ge 0 _) Hn).
Qed.

Lemma stakeFor_default p :
  stakeFor None p = 5 * (pos_yes_shares p + pos_no_shares p).
Proof.
  unfold stakeFor. cbn [default from_option].
  rewrite <- (Qfloor_Z (5 * (pos_yes_shares p + pos_no_shares p))).
  apply Qfloor_comp. rewrite !inject_Z_mult. field.
Qed.

(** X26. Whoever the voting dialog asks is locked out of buying.  When
    the dialog finds a pending market for the user, that market is in
    VOTING in the current league, the user has no vote on it and holds
    shares of it, the stake asked for without a settings row is 5 tokens
    per share held, and every place-order request of that user is refused
    with the 403 of the pending-vote gate and writes nothing. *)
Theorem pending_dialog_blocks_buying u lg pct d m p stake :
  checkForPendingVotes u lg pct d = Some (m, p, stake) →
  m ∈ markets d ∧ mkt_status m = VOTING ∧ mkt_league_id m = Some lg ∧
  (∀ v, v ∈ votes d → vt_user_id v = u → vt_market_id v ≠ mkt_id m) ∧
  select_position (mkt_id m) u d = Some p ∧
  (0 < pos_yes_shares p ∨ 0 < pos_no_shares p) ∧
  (pct = None → stake = 5 * (pos_yes_shares p + pos_no_shares p)) ∧
  ∀ rq, PlaceOrder.user_id rq = u →
    PlaceOrder.serve rq d =
    (PlaceOrder.Error 403 "You must vote on all pending markets before trading", d).
Proof.
  unfold checkForPendingVotes.
  destruct (negb (truthy u) || negb (truthy lg)); [done|].
  intros (Hm & Hv & Hp & Hsh & ->)%firstPending_Some.
  apply list_elem_of_filter in Hm as [[Hst Hlg] Hm].
  assert (∀ v, v ∈ votes d → vt_user_id v = u → vt_market_id v ≠ mkt_id m) as Hnv.
  { intros v Hin Hu E. apply Hv. apply elem_of_list_to_set, list_elem_of_fmap.
    exists v. split; [done|]. by apply list_elem_of_filter. }
  split_and!; try done.
  - intros ->. apply stakeFor_default.
  - intros rq <-. apply pending_vote_blocks_buy.
    apply hasUnvotedMarket_spec. by exists m.
Qed.

Lemma pending_dialog_blocks_buying_witness :
  PlaceOrder.serve (PlaceOrder.Request "m1" "bob" YES 50 1 "L") MoreExamples.one_vote
  = (PlaceOrder.Error 403 "You must vote on all pending markets before trading",
     MoreExamples.one_vote).
Proof.
  assert (checkForPendingVotes "bob" "L" None MoreExamples.one_vote
          = Some (Market "m1" VOTING None (Some "L") (Some 5) (Some "alice") None,
                  Position 2 "m1" "bob" 0 5, 25)) as Hfound
    by (vm_compute; reflexivity).
  destruct (pending_dialog_blocks_buying _ _ _ _ _ _ _ Hfound)
    as (_ & _ & _ & _ & _ & _ & _ & Hgate).
  by apply Hgate.
Defined.

(** X27. A bystander is locked out without a ballot.  When some market
    in VOTING has no vote of the user, and the user holds no shares in
    any market in VOTING, the voting dialog finds nothing to ask, in any
    league, and yet every place-order request of that user is refused
    with the 403 of the pending-vote gate. *)
Theorem bystander_blocked_without_ballot u lg pct d m :
  m ∈ markets d → mkt_status m = VOTING →
  (∀ v, v ∈ votes d → vt_user_id v = u → vt_market_id v ≠ mkt_id m) →
  (∀ m' p, m' ∈ markets d → mkt_status m' = VOTING →
     select_position (mkt_id m') u d = Some p →
     pos_yes_shares p ≤ 0 ∧ pos_no_shares p ≤ 0) →
  checkForPendingVotes u lg pct d = None ∧
  ∀ rq, PlaceOrder.user_id rq = u →
    PlaceOrder.serve rq d =
    (PlaceOrder.Error 403 "You must vote on all pending markets before trading", d).
Proof.
  intros Hm Hst Hnv Hnone. split.
  - unfold checkForPendingVotes.
    destruct (negb (truthy u) || negb (truthy lg)); [done|].
    apply firstPending_None.
    intros m' p [[Hst' _] Hm']%list_elem_of_filter. by apply Hnone.
  - intros rq <-. apply pending_vote_blocks_buy.
    apply hasUnvotedMarket_spec. by exists m.
Qed.

Lemma bystander_blocked_without_ballot_witness :
  checkForPendingVotes "dave" "L" None MoreExamples.one_vote = None ∧
  PlaceOrder.serve (PlaceOrder.Request "m1" "dave" YES 50 1 "L") MoreExamples.one_vote
  = (PlaceOrder.Error 403 "You must vote on all pending markets before trading",
     MoreExamples.one_vote).
Proof.
  assert (Market "m1" VOTING None (Some "L") (Some 5) (Some "alice") None
          ∈ markets MoreExamples.one_vote) as Hm by (simpl; left).
  assert (mkt_status (Market "m1" VOTING None (Some "L") (Some 5) (Some "alice") None)
          = VOTING) as Hst by reflexivity.
  assert (∀ v, v ∈ votes MoreExamples.one_vote → vt_user_id v = "dave" →
               vt_market_id v
               ≠ mkt_id (Market "m1" VOTING None (Some "L") (Some 5) (Some "alice") None))
    as Hnv.
  { intros v Hv Hu. simpl in Hv. apply list_elem_of_singleton in Hv. subst v.
    discriminate Hu. }
  assert (∀ m' p, m' ∈ markets MoreExamples.one_vote → mkt_status m' = VOTING →
            select_position (mkt_id m') "dave" MoreExamples.one_vote = Some p →
            pos_yes_shares p ≤ 0 ∧ pos_no_shares p ≤ 0) as Hnone.
  { intros m' p Hm' _ Hp. simpl in Hm'. apply list_elem_of_singleton in Hm'.
    subst m'. vm_compute in Hp. discriminate Hp. }
  destruct (bystander_blocked_without_ballot "dave" "L" None _ _ Hm Hst Hnv Hnone)
    as [Hdialog Hgate].
  split; [exact Hdialog|]. by apply Hgate.
Defined.

End pending_votes.

(** ** The price levels of the order book *)

Section order_book.
Import OrderBook.

Lemma level_absent userId p os :
  level_present p os = false →
  level_quantity p os = 0 ∧ level_own userId p os = false.
Proof.
  induction os as [|o os IH]; [done|].
  cbn [level_present level_quantity level_own existsb foldr].
  intros [Ho Hos]%orb_false_iff. destruct (IH Hos) as [Hq Hown].
  fold (level_quantity p os). fold (level_own userId p os).
  rewrite Ho, Hq, Hown. done.
Qed.

Lemma add_orders_lookup userId os m p :
  foldl (add_order userId) m os !! p =
  if level_present p os
  then Some ((default (0, false) (m !! p)).1 + level_quantity p os,
             (default (0, false) (m !! p)).2 || level_own userId p os)
  else m !! p.
Proof.
  revert m. induction os as [|o os IH]; intros m; [done|].
  cbn [foldl]. rewrite IH. unfold add_order.
  cbn [level_present level_quantity level_own existsb foldr].
  fold (level_present p os). fold (level_quantity p os). fold (level_own userId p os).
  destruct (decide (ord_price o = p)) as [<-|Hne].
  - rewrite lookup_insert_eq.
    rewrite !(bool_decide_eq_true_2 (ord_price o = ord_price o)) by done.
    cbn [default from_option fst snd orb andb].
    set (e := from_option id (0, false) (m !! ord_price o)).
    destruct (level_present (ord_price o) os) eqn:Hp.
    + unfold id. cbn [fst snd]. f_equal. f_equal; [lia|]. by rewrite orb_assoc.
    + destruct (level_absent userId _ _ Hp) as [-> ->].
      f_equal. f_equal; [lia|]. by rewrite orb_false_r.
  - rewrite lookup_insert_ne by done.
    rewrite !(bool_decide_eq_false_2 (ord_price o = p)) by done.
    cbn [orb andb]. by destruct (level_present p os).
Qed.

#[local] Instance level_before_total sell : Total (level_before sell).
Proof. intros a b. unfold level_before. destruct sell; lia. Qed.

#[local] Instance level_before_trans sell : Transitive (level_before sell).
Proof. intros a b c. unfold level_before. destruct sell; lia. Qed.

Lemma level_present_true p os :
  level_present p os = true ↔ ∃ o, o ∈ os ∧ ord_price o = p.
Proof.
  unfold level_present. rewrite existsb_exists. split.
  - intros (o & Ho%list_elem_of_In & E%bool_decide_eq_true_1). by exists o.
  - intros (o & Ho & E). exists o. split; [by apply list_elem_of_In|].
    by apply bool_decide_eq_true_2.
Qed.

(** X28. What the order book shows.  For the asks or the bids of the
    orders given, [aggregateOrders] shows one row per price at which there
    is an order of that kind, and no other row; prices do not repeat and
    run upwards for asks, downwards for bids; the quantity of a row is
    the sum of what remains of the orders at its price, and the row is
    marked as the viewer's exactly when one of those orders is the
    viewer's. *)
Theorem order_book_levels userId orderList sell :
  let filtered := filter (λ o, ord_is_sell_order o = sell) orderList in
  let rows := aggregateOrders userId orderList sell in
  (∀ r, r ∈ rows ↔
     r = Aggregated (price r) (level_quantity (price r) filtered)
           (level_own userId (price r) filtered) sell
     ∧ ∃ o, o ∈ filtered ∧ ord_price o = price r) ∧
  NoDup (price <$> rows) ∧
  StronglySorted (level_before sell) rows.
Proof.
  cbv zeta. unfold aggregateOrders.
  set (filtered := filter (λ o, ord_is_sell_order o = sell) orderList).
  set (byPrice := foldl (add_order userId) ∅ filtered).
  assert (∀ p, byPrice !! p =
               if level_present p filtered
               then Some (level_quantity p filtered, level_own userId p filtered)
               else None) as Hlook.
  { intros p. unfold byPrice. rewrite add_orders_lookup, lookup_empty.
    by destruct (level_present p filtered). }
  split_and!.
  - intros r. rewrite merge_sort_Permutation, list_elem_of_fmap. split.
    + intros ([p [q own]] & -> & He%elem_of_map_to_list). cbn [fst snd price] in *.
      rewrite Hlook in He.
      destruct (level_present p filtered) eqn:Hp; [|done].
      injection He as <- <-. split; [done|]. by apply level_present_true.
    + intros [Hr Ho%level_present_true].
      exists (price r, (level_quantity (price r) filtered,
                        level_own userId (price r) filtered)).
      split; [done|]. apply elem_of_map_to_list. by rewrite Hlook, Ho.
  - rewrite merge_sort_Permutation, <- list_fmap_compose.
    apply (NoDup_fst_map_to_list byPrice).
  - apply StronglySorted_merge_sort; apply _.
Qed.

End order_book.
